(** * pose_demo.py: channel remapping, output naming and disc rasterizer

    A shallow embedding of [src/python/pose/pose_demo.py].  Arrays are NumPy
    arrays (a shape and an element per index), float32 arithmetic is the
    IEEE-754 binary32 arithmetic of [SpecFloat], exceptions are explicit
    results, and the command line entry point emits a trace of the library
    calls that touch the outside world. *)

From Stdlib Require Import ZArith List String Ascii Bool Lia Arith SpecFloat.
Import ListNotations.

Set Implicit Arguments.

(** ** Exceptions and fallible computations *)

Inductive exn : Type :=
| IndexError
| ValueError
| OverflowError
| FileNotFoundError.

Inductive result (A : Type) : Type :=
| Ok (a : A)
| Raise (e : exn).

Arguments Ok {A} a.
Arguments Raise {A} e.

Definition rbind {A B : Type} (m : result A) (k : A -> result B) : result B :=
  match m with
  | Ok a => k a
  | Raise e => Raise e
  end.

Declare Scope result_scope.
Delimit Scope result_scope with result.
Notation "x <- m ;; k" := (rbind m (fun x => k))
  (at level 61, m at next level, right associativity) : result_scope.

Definition raises {A : Type} (m : result A) : bool :=
  match m with
  | Ok _ => false
  | Raise _ => true
  end.

(** [for j in l: s = body j s], stopping at the first exception. *)
Fixpoint for_each {S : Type} (l : list nat) (body : nat -> S -> result S)
  (s : S) : result S :=
  match l with
  | [] => Ok s
  | j :: l' => rbind (body j s) (for_each l' body)
  end.

(** [range(a, b)] *)
Definition range (a b : nat) : list nat := seq a (b - a).

(** ** IEEE-754 binary32 values ([dtype='float32']) *)

Module F32.

Definition prec : Z := 24.
Definition emax : Z := 128.

Definition t : Type := spec_float.

Definition zero : t := S754_zero false.
Definition of_Z (z : Z) : t := binary_normalize prec emax z 0 false.
Definition add : t -> t -> t := SFadd prec emax.
Definition mul : t -> t -> t := SFmul prec emax.
Definition div : t -> t -> t := SFdiv prec emax.

(** The Python literals [2.] and [4.], exactly representable. *)
Definition two : t := Eval cbv in of_Z 2.
Definition four : t := Eval cbv in of_Z 4.

End F32.

(** ** NumPy arrays of rank 2 and 3 *)

Module np.

Record ndarray2 (A : Type) : Type := Array2 {
  rows : nat;
  cols : nat;
  at2 : nat -> nat -> A
}.

Record ndarray3 (A : Type) : Type := Array3 {
  dim0 : nat;
  dim1 : nat;
  dim2 : nat;
  at3 : nat -> nat -> nat -> A
}.

Section Generic.
Context {A : Type}.

(** [a[:, :, k]] for a literal [k >= 0]. *)
Definition chan (a : ndarray3 A) (k : nat) : result (ndarray2 A) :=
  if k <? dim2 a
  then Ok (Array2 (dim0 a) (dim1 a) (fun i j => at3 a i j k))
  else Raise IndexError.

(** Broadcasting of one axis: lengths agree, or one of them is 1. *)
Definition broadcast_len (n m : nat) : option nat :=
  if n =? m then Some n
  else if n =? 1 then Some m
  else if m =? 1 then Some n
  else None.

(** Index into an axis of length [n] that was stretched by broadcasting. *)
Definition bidx (n i : nat) : nat := if n =? 1 then 0 else i.

(** Can an axis of length [n] be assigned to one of length [m]? *)
Definition assignable_len (n m : nat) : bool := (n =? m) || (n =? 1).

(** [a[:, :, k] = b] *)
Definition set_chan (a : ndarray3 A) (k : nat) (b : ndarray2 A)
  : result (ndarray3 A) :=
  if k <? dim2 a then
    if assignable_len (rows b) (dim0 a) && assignable_len (cols b) (dim1 a)
    then Ok (Array3 (dim0 a) (dim1 a) (dim2 a)
               (fun i j c =>
                  if c =? k
                  then at2 b (bidx (rows b) i) (bidx (cols b) j)
                  else at3 a i j c))
    else Raise ValueError
  else Raise IndexError.

(** Elementwise binary operation of two rank-2 arrays. *)
Definition zip2 (op : A -> A -> A) (a b : ndarray2 A)
  : result (ndarray2 A) :=
  match broadcast_len (rows a) (rows b), broadcast_len (cols a) (cols b) with
  | Some r, Some c =>
      Ok (Array2 r c
            (fun i j => op (at2 a (bidx (rows a) i) (bidx (cols a) j))
                           (at2 b (bidx (rows b) i) (bidx (cols b) j))))
  | _, _ => Raise ValueError
  end.

(** Elementwise operation with a Python scalar. *)
Definition map2 (f : A -> A) (a : ndarray2 A) : ndarray2 A :=
  Array2 (rows a) (cols a) (fun i j => f (at2 a i j)).

(** [np.swapaxes(a, 0, 2)] *)
Definition swapaxes02 (a : ndarray3 A) : ndarray3 A :=
  Array3 (dim2 a) (dim1 a) (dim0 a) (fun i j k => at3 a k j i).

(** [a[:, :, ::-1]] *)
Definition flip2 (a : ndarray3 A) : ndarray3 A :=
  Array3 (dim0 a) (dim1 a) (dim2 a)
    (fun i j k => at3 a i j (dim2 a - 1 - k)).

(** [np.dstack((a, a, a))] for a rank-2 array. *)
Definition dstack3 (a : ndarray2 A) : ndarray3 A :=
  Array3 (rows a) (cols a) 3 (fun i j _ => at2 a i j).

End Generic.

(** [np.zeros(shape=(h, w, c), dtype='float32')] *)
Definition zeros3 (h w c : nat) : ndarray3 F32.t :=
  Array3 h w c (fun _ _ _ => F32.zero).

End np.

Import np.

(** ** The channel remapper (lines 146 to 162 of [predict_pose_from])

    [unary_maps] is the stack returned by [estimate_pose]. *)

(** Modelled from the spec: [estimate_pose] is not among the sources; its
    heatmap stack has [dtype float32] (spec, external interfaces), so the
    arithmetic below stays in binary32 and storing into the float32 array
    [um2] converts nothing. *)
Definition heatmaps : Type := ndarray3 F32.t.

Local Open Scope result_scope.

(** [pelvis = (unary_maps[:,:,2] + unary_maps[:,:,3])/2.] *)
Definition pelvis_of (unary_maps : heatmaps) : result (ndarray2 F32.t) :=
  c2 <- chan unary_maps 2 ;;
  c3 <- chan unary_maps 3 ;;
  s <- zip2 F32.add c2 c3 ;;
  Ok (map2 (fun v => F32.div v F32.two) s).

(** [thorax = (2. * pelvis + unary_maps[:,:,12] + unary_maps[:,:,13])/4.] *)
Definition thorax_of (unary_maps : heatmaps) (pelvis : ndarray2 F32.t)
  : result (ndarray2 F32.t) :=
  let p2 := map2 (fun v => F32.mul F32.two v) pelvis in
  c12 <- chan unary_maps 12 ;;
  s1 <- zip2 F32.add p2 c12 ;;
  c13 <- chan unary_maps 13 ;;
  s2 <- zip2 F32.add s1 c13 ;;
  Ok (map2 (fun v => F32.div v F32.four) s2).

(** Lines 146 to 162.  The two [print] calls only report sums on the
    standard output and are left out. *)
Definition remap (unary_maps : heatmaps) : result heatmaps :=
  pelvis <- pelvis_of unary_maps ;;
  thorax <- thorax_of unary_maps pelvis ;;
  let um2 := zeros3 (dim0 unary_maps) (dim1 unary_maps) 16 in
  um2 <- for_each (range 0 6)
           (fun j um2 => c <- chan unary_maps j ;; set_chan um2 j c) um2 ;;
  um2 <- set_chan um2 6 pelvis ;;
  um2 <- set_chan um2 7 thorax ;;
  for_each (range 8 16)
    (fun j um2 => c <- chan unary_maps (j - 2) ;; set_chan um2 j c) um2.

Local Close Scope result_scope.

(** ** Python numbers and the built-in [int] *)

Inductive pynum : Type :=
| PyInt (z : Z)
| PyFloat (f : spec_float).

(** Magnitude of [m * 2^e] with the fraction dropped: a shift to the left for
    [e >= 0], to the right otherwise. *)
Definition trunc_mag (m : positive) (e : Z) : Z := Z.shiftl (Zpos m) e.

(** [int(x)]: the identity on integers; on floats the fraction is discarded,
    [nan] raises [ValueError] and an infinity [OverflowError]. *)
Definition py_int (x : pynum) : result Z :=
  match x with
  | PyInt z => Ok z
  | PyFloat S754_nan => Raise ValueError
  | PyFloat (S754_infinity _) => Raise OverflowError
  | PyFloat (S754_zero _) => Ok 0%Z
  | PyFloat (S754_finite s m e) => Ok (cond_Zopp s (trunc_mag m e))
  end.

(** ** Conversions used by the blend of [_npcircle] *)

Module F64.
Definition prec : Z := 53.
Definition emax : Z := 1024.
Definition one : spec_float := Eval cbv in binary_normalize prec emax 1 0 false.
Definition sub : spec_float -> spec_float -> spec_float := SFsub prec emax.
End F64.

(** A Python float (binary64) operand of a float32 array is rounded to
    binary32 first. *)
Definition f32_of_f64 (f : spec_float) : F32.t :=
  match f with
  | S754_finite s m e => binary_round F32.prec F32.emax s m e
  | _ => f
  end.

(** [.astype('uint8')] of a float32: the fraction is dropped; a value outside
    0..255 is reduced modulo 256 and a non-finite one gives 0 (what the
    conversion does on the usual platforms). *)
Definition uint8_of_f32 (f : F32.t) : Z :=
  match f with
  | S754_finite s m e => (cond_Zopp s (trunc_mag m e) mod 256)%Z
  | _ => 0%Z
  end.

(** One element of
    [(old.astype('float32') * transparency
      + np.array(color).astype('float32') * (1.0 - transparency)).astype('uint8')] *)
Definition blend (transparency : spec_float) (old color : Z) : Z :=
  uint8_of_f32
    (F32.add (F32.mul (F32.of_Z old) (f32_of_f64 transparency))
             (F32.mul (F32.of_Z color)
                      (f32_of_f64 (F64.sub F64.one transparency)))).

(** ** Slices *)

(** A slice bound [v] on an axis of length [n]: negative bounds count from
    the end, and everything is clipped to [0..n]. *)
Definition slice_bound (n : nat) (v : Z) : Z :=
  if (v <? 0)%Z then Z.max 0 (v + Z.of_nat n) else Z.min v (Z.of_nat n).

(** Offset and length of [a[start:stop]] on an axis of length [n]. *)
Definition slice_start (n : nat) (start : Z) : nat :=
  Z.to_nat (slice_bound n start).

Definition slice_len (n : nat) (start stop : Z) : nat :=
  Z.to_nat (slice_bound n stop - slice_bound n start).

(** ** The disc rasterizer [_npcircle] *)

Definition image : Type := ndarray3 Z.

(** [y, x = np.ogrid[-radius:radius, -radius:radius]]: both hold the
    integers [-radius, ..., radius-1]; [ogrid_len] is their length and
    [ogrid_at] the value at a position. *)
Definition ogrid_len (radius : Z) : nat := Z.to_nat (radius - (- radius)).
Definition ogrid_at (radius : Z) (i : nat) : Z := (- radius + Z.of_nat i)%Z.

(** [index = x**2 + y**2 <= radius**2], at row [i] and column [j]. *)
Definition disc_index (radius : Z) (i j : nat) : bool :=
  (ogrid_at radius j ^ 2 + ogrid_at radius i ^ 2 <=? radius ^ 2)%Z.

Local Open Scope result_scope.

(** The body of [_npcircle] after the three [int] conversions.  The window
    [image[cy-radius:cy+radius, cx-radius:cx+radius]] is a view: the
    assignment through it writes into [image].  Indexing the window with
    the boolean array raises [IndexError] unless their first two axes have
    the same lengths; NumPy makes this check only for a boolean axis that
    is not empty, so the empty mask of a radius below 1 selects nothing
    from any window.  The blended rows then have to fit the selected
    pixels ([ValueError] otherwise).

    Building the mask on lines 36 and 37 is taken to succeed.  For a radius
    so large that arrays of [2 * radius] by [2 * radius] entries cannot be
    allocated those lines raise [MemoryError] (or [ValueError]) before
    anything is indexed; the properties that need it bound the radius by
    the image. *)
Definition npcircle_int (im : image) (cx cy radius : Z) (color : list Z)
  (transparency : spec_float) : result image :=
  let n := ogrid_len radius in
  let y0 := slice_start (dim0 im) (cy - radius) in
  let h := slice_len (dim0 im) (cy - radius) (cy + radius) in
  let x0 := slice_start (dim1 im) (cx - radius) in
  let w := slice_len (dim1 im) (cx - radius) (cx + radius) in
  if (n =? 0) || ((n =? h) && (n =? w)) then
    let k := List.length color in
    if (k =? dim2 im) || (k =? 1) then
      Ok (Array3 (dim0 im) (dim1 im) (dim2 im)
            (fun y x c =>
               if (y0 <=? y) && (y <? y0 + n) && (x0 <=? x) && (x <? x0 + n)
                  && disc_index radius (y - y0) (x - x0)
               then blend transparency (at3 im y x c)
                      (nth (bidx k c) color 0%Z)
               else at3 im y x c))
    else Raise ValueError
  else Raise IndexError.

(** [_npcircle(image, cx, cy, radius, color, transparency)] mutates [image]
    in place: the result is the array afterwards and the exception raised,
    if any.  Every exception precedes the one assignment. *)
Definition _npcircle (im : image) (cx cy radius : pynum) (color : list Z)
  (transparency : spec_float) : image * option exn :=
  match (radius <- py_int radius ;;
         cx <- py_int cx ;;
         cy <- py_int cy ;;
         npcircle_int im cx cy radius color transparency) with
  | Ok im' => (im', None)
  | Raise e => (im, Some e)
  end.

Local Close Scope result_scope.

(** ** Strings and [os.path] (POSIX flavour) *)

Local Open Scope string_scope.

Module pystr.

(** [s.rfind(c)]: position of the last [c] in [s], or [-1]; [i] is the
    position of the first character of [s]. *)
Fixpoint rfind_from (c : ascii) (s : string) (i : Z) : Z :=
  match s with
  | EmptyString => (-1)%Z
  | String a s' =>
      let r := rfind_from c s' (i + 1)%Z in
      if (0 <=? r)%Z then r else if Ascii.eqb a c then i else (-1)%Z
  end.

Definition rfind (c : ascii) (s : string) : Z := rfind_from c s 0%Z.

(** [s[:i]] and [s[i:]] for [0 <= i]. *)
Definition upto (s : string) (i : Z) : string := substring 0 (Z.to_nat i) s.
Definition from (s : string) (i : Z) : string :=
  substring (Z.to_nat i) (String.length s - Z.to_nat i) s.

Definition startswith (s p : string) : bool := prefix p s.

Fixpoint endswith (s p : string) : bool :=
  if String.eqb s p then true
  else match s with
       | EmptyString => false
       | String _ s' => endswith s' p
       end.

(** Is [s] made of the character [c] only? *)
Fixpoint all_char (c : ascii) (s : string) : bool :=
  match s with
  | EmptyString => true
  | String a s' => Ascii.eqb a c && all_char c s'
  end.

(** [s.rstrip(c)] *)
Fixpoint rstrip (c : ascii) (s : string) : string :=
  match s with
  | EmptyString => EmptyString
  | String a s' => if all_char c s then EmptyString else String a (rstrip c s')
  end.

(** [s.split(c)] *)
Fixpoint split (c : ascii) (s : string) : list string :=
  match s with
  | EmptyString => [EmptyString]
  | String a s' =>
      match split c s' with
      | [] => [EmptyString]
      | h :: t => if Ascii.eqb a c then EmptyString :: h :: t
                  else String a h :: t
      end
  end.

End pystr.

Module posixpath.

Definition sep : ascii := "/"%char.
Definition extsep : ascii := "."%char.

(** [os.path.join(a, b)] *)
Definition join (a b : string) : string :=
  if pystr.startswith b "/" then b
  else if (String.eqb a "") || pystr.endswith a "/" then a ++ b
  else a ++ "/" ++ b.

(** [os.path.basename(p)] *)
Definition basename (p : string) : string :=
  pystr.from p (pystr.rfind sep p + 1).

(** [os.path.dirname(p)] *)
Definition dirname (p : string) : string :=
  let head := pystr.upto p (pystr.rfind sep p + 1) in
  if negb (String.eqb head "") && negb (pystr.all_char sep head)
  then pystr.rstrip sep head
  else head.

(** The scan over leading dots of [splitext]: is there a character other
    than a dot in [p[i:dot]]? *)
Fixpoint has_non_dot (p : string) (i : nat) (len : nat) : bool :=
  match len with
  | O => false
  | S len' =>
      match get i p with
      | Some c => if Ascii.eqb c extsep then has_non_dot p (S i) len' else true
      | None => true
      end
  end.

(** [os.path.splitext(p)] *)
Definition splitext (p : string) : string * string :=
  let sepIndex := pystr.rfind sep p in
  let dotIndex := pystr.rfind extsep p in
  if (sepIndex <? dotIndex)%Z
     && has_non_dot p (Z.to_nat (sepIndex + 1))
          (Z.to_nat (dotIndex - (sepIndex + 1)))
  then (pystr.upto p dotIndex, pystr.from p dotIndex)
  else (p, "").

End posixpath.


(** ** The command line entry point [predict_pose_from] *)

(** What a decoded image file looks like: rank 2 (grayscale) or rank 3. *)
Inductive decoded : Type :=
| Gray (a : ndarray2 Z)
| Colour (a : ndarray3 Z).

(** The world outside the program: the file system as [os.path] and [glob]
    see it, the image decoder, the parser behind [float(...)], the pose
    estimator, and what [h5py.File(fname, 'w')] raises for a path, if
    anything (the bundle path can name a directory that does not exist).
    The other calls into the world are taken to succeed; the further
    exceptions modelled are the ones the program's own indexing and
    conversions raise. *)
Record World : Type := {
  isdir : string -> bool;
  path_exists : string -> bool;
  glob : string -> list string;
  imread : string -> decoded;
  float_of_string : string -> option spec_float;
  estimate_pose :
    image -> string -> string -> list spec_float ->
    ndarray2 spec_float * heatmaps;
  h5_create : string -> option exn
}.

(** The calls a run makes into the world, in order.  [Savez] and [Imsave]
    carry the name handed to the writer (the archive written is
    [npz_file] of it); [H5Create] is the call [h5py.File(fname, 'w')],
    recorded whether or not it raises. *)
Inductive event : Type :=
| SetModeCpu
| SetModeGpu
| SetDevice (gpu : Z)
| Mkdir (path : string)
| Savez (path : string) (pose : ndarray2 spec_float)
| H5Create (path : string)
| H5PutHeatmap (path : string) (um2 : heatmaps)
| H5PutImage (path : string) (img : image)
| H5Close (path : string)
| Imsave (path : string) (visim : image).

(** A computation with effects: the events emitted and how it ended. *)
Definition M (A : Type) : Type := list event * result A.

Definition ret {A : Type} (a : A) : M A := ([], Ok a).

Definition bind {A B : Type} (m : M A) (k : A -> M B) : M B :=
  match m with
  | (tr, Ok a) => let (tr', r) := k a in ((tr ++ tr')%list, r)
  | (tr, Raise e) => (tr, Raise e)
  end.

Definition emit (e : event) : M unit := ([e], Ok tt).
Definition lift {A : Type} (r : result A) : M A := ([], r).

Declare Scope run_scope.
Delimit Scope run_scope with run.
Notation "x <- m ;; k" := (bind m (fun x => k))
  (at level 61, m at next level, right associativity) : run_scope.
Notation "m ;;; k" := (bind m (fun _ => k))
  (at level 61, right associativity) : run_scope.

Definition trace {A : Type} (m : M A) : list event := fst m.
Definition outcome {A : Type} (m : M A) : result A := snd m.

(** [for x in l: s = body x s] with effects. *)
Fixpoint for_each_M {X S : Type} (l : list X) (body : X -> S -> M S) (s : S)
  : M S :=
  match l with
  | [] => ret s
  | x :: l' => bind (body x s) (for_each_M l' body)
  end.

(** [a[i, j]] on a rank-2 array, for literal non-negative indices. *)
Definition getitem2 {A : Type} (a : ndarray2 A) (i j : nat) : result A :=
  if ((i <? rows a) && (j <? cols a))%nat then Ok (at2 a i j)
  else Raise IndexError.

(** [[float(val) for val in scales.split(',')]] *)
Fixpoint parse_scales (w : World) (vals : list string)
  : result (list spec_float) :=
  match vals with
  | [] => Ok []
  | v :: vals' =>
      match float_of_string w v with
      | None => Raise ValueError
      | Some f => rbind (parse_scales w vals') (fun fs => Ok (f :: fs))
      end
  end.

Definition model_def : string := "../../models/deepercut/ResNet-152.prototxt".
Definition model_bin : string := "../../models/deepercut/ResNet-152.caffemodel".

Definition colors : list (list Z) :=
  [[255; 0; 0]; [0; 255; 0]; [0; 0; 255]; [0; 245; 255]; [255; 131; 250];
   [255; 255; 0];
   [255; 0; 0]; [0; 255; 0]; [0; 0; 255]; [0; 245; 255]; [255; 131; 250];
   [255; 255; 0];
   [0; 0; 0]; [255; 255; 255]]%Z.

(** The value of [out_name] after the [if]/[elif] at the head of the loop
    body; [out_name] is the value the variable had before. *)
Definition next_out_name (out_name_provided : option string)
  (process_folder : bool) (out_name : option string) (image_name : string)
  : option string :=
  match out_name_provided with
  | None => Some (image_name ++ "_pose.npz")
  | Some d =>
      if process_folder
      then Some (posixpath.join d (posixpath.basename image_name ++ "_pose.npz"))
      else out_name
  end.

(** [fname], the path of the heatmap bundle. *)
Definition h5_name (image_name : string) : string :=
  let folder := posixpath.dirname image_name in
  posixpath.join folder (fst (posixpath.splitext image_name) ++ ".h5").

(** [visim = image[:, :, ::-1].copy()], where [image] is by then the array
    rebound on line 166 to [np.swapaxes(image, 0, 2)]. *)
Definition visim_of (swapped : image) : image := flip2 swapped.

Local Open Scope run_scope.

(** The [for p_idx in range(14)] loop drawing the joints. *)
Definition draw_joint (pose : ndarray2 spec_float) (p_idx : nat)
  (visim : image) : M image :=
  cx <- lift (getitem2 pose 0 p_idx) ;;
  cy <- lift (getitem2 pose 1 p_idx) ;;
  match _npcircle visim (PyFloat cx) (PyFloat cy) (PyInt 8)
          (nth p_idx colors []) (S754_zero false) with
  | (visim', None) => ret visim'
  | (_, Some e) => lift (Raise e)
  end.

(** Lines 123 to 128: the decoded file as a three-channel array, in BGR
    order when it was read as RGB. *)
Definition load_image (w : World) (image_name : string) : image :=
  match imread w image_name with
  | Gray a => dstack3 a
  | Colour a => flip2 a
  end.

(** One turn of [for image_name in images]; the state carried from one turn
    to the next is the variable [out_name]. *)
Definition process_image (w : World) (out_name_provided : option string)
  (process_folder : bool) (scales : list spec_float) (visualize : bool)
  (image_name : string) (out_name : option string) : M (option string) :=
  let out_name := next_out_name out_name_provided process_folder
                    out_name image_name in
  let image := load_image w image_name in
  let (pose, unary_maps) := estimate_pose w image model_def model_bin scales in
  match out_name with
  | None => lift (Raise ValueError)
  | Some out =>
      emit (Savez out pose) ;;;
      let fname := h5_name image_name in
      emit (H5Create fname) ;;;
      lift (match h5_create w fname with
            | None => Ok tt
            | Some e => Raise e
            end) ;;;
      um2 <- lift (remap unary_maps) ;;
      let um2 := swapaxes02 um2 in
      let image := swapaxes02 image in
      emit (H5PutHeatmap fname um2) ;;;
      emit (H5PutImage fname image) ;;;
      emit (H5Close fname) ;;;
      (if visualize then
         visim <- for_each_M (range 0 14) (draw_joint pose) (visim_of image) ;;
         let vis_name := out ++ "_vis.png" in
         emit (Imsave vis_name visim)
       else ret tt) ;;;
      ret (Some out)
  end.

Definition predict_pose_from (w : World) (image_name : string)
  (out_name : option string) (scales : string) (visualize : bool)
  (folder_image_suffix : string) (use_cpu : bool) (gpu : Z)
  : M unit :=
  scales <- lift (parse_scales w (pystr.split ","%char scales)) ;;
  let (images, process_folder) :=
    if isdir w image_name
    then (glob w (posixpath.join image_name ("*" ++ folder_image_suffix)), true)
    else ([image_name], false) in
  (if use_cpu then emit SetModeCpu
   else emit SetModeGpu ;;; emit (SetDevice gpu)) ;;;
  let out_name_provided := out_name in
  (if process_folder
      && match out_name with
         | Some d => negb (path_exists w d)
         | None => false
         end
   then match out_name with
        | Some d => emit (Mkdir d)
        | None => ret tt
        end
   else ret tt) ;;;
  _ <- for_each_M images
         (process_image w out_name_provided process_folder scales visualize)
         out_name ;;
  ret tt.

Local Close Scope run_scope.

Local Close Scope string_scope.

(** ** Notions used to state the properties *)

Local Open Scope Z_scope.

(** The pixels [_npcircle] touches, in image coordinates: row [y] and
    column [x] lie in the window [cy-radius .. cy+radius-1] by
    [cx-radius .. cx+radius-1] and within [radius] of the centre. *)
Definition covered (cx cy radius : Z) (y x : nat) : bool :=
  (cy - radius <=? Z.of_nat y) && (Z.of_nat y <? cy + radius)
  && (cx - radius <=? Z.of_nat x) && (Z.of_nat x <? cx + radius)
  && ((Z.of_nat x - cx) ^ 2 + (Z.of_nat y - cy) ^ 2 <=? radius ^ 2).

(** The disc of the spec: every pixel within [radius] of the centre. *)
Definition in_disc (cx cy radius : Z) (y x : nat) : bool :=
  (Z.of_nat x - cx) ^ 2 + (Z.of_nat y - cy) ^ 2 <=? radius ^ 2.

(** The interval [lo .. hi-1] lies partly inside and partly outside an axis
    of length [n]: it crosses the low or the high end. *)
Definition crosses_edge (n : nat) (lo hi : Z) : Prop :=
  (lo < 0 /\ 0 < hi) \/ (lo < Z.of_nat n /\ Z.of_nat n < hi).

(** A finite float is the fraction [float_num / float_den]; its integer
    part is the quotient rounded toward zero. *)
Definition is_finite (f : spec_float) : bool :=
  match f with
  | S754_zero _ | S754_finite _ _ _ => true
  | _ => false
  end.

Definition float_num (f : spec_float) : Z :=
  match f with
  | S754_finite s m e => cond_Zopp s (Zpos m) * 2 ^ Z.max 0 e
  | _ => 0
  end.

Definition float_den (f : spec_float) : Z :=
  match f with
  | S754_finite _ _ e => 2 ^ Z.max 0 (- e)
  | _ => 1
  end.

Definition integer_part (f : spec_float) : Z :=
  Z.quot (float_num f) (float_den f).

Local Close Scope Z_scope.
Local Open Scope string_scope.

(** The stem of a path in the usual sense, the last component without its
    extension, and the bundle path as the spec words it: the directory of
    the input joined with its stem and [.h5]. *)
Definition stem (p : string) : string :=
  fst (posixpath.splitext (posixpath.basename p)).

Definition spec_h5_name (image_name : string) : string :=
  posixpath.join (posixpath.dirname image_name) (stem image_name ++ ".h5").

(** The paths a trace hands to one kind of call. *)
Fixpoint paths_of (sel : event -> option string) (tr : list event)
  : list string :=
  match tr with
  | [] => []
  | e :: tr' =>
      match sel e with
      | Some p => p :: paths_of sel tr'
      | None => paths_of sel tr'
      end
  end.

Definition is_savez (e : event) : option string :=
  match e with Savez p _ => Some p | _ => None end.
Definition is_h5 (e : event) : option string :=
  match e with H5Create p => Some p | _ => None end.
Definition is_imsave (e : event) : option string :=
  match e with Imsave p _ => Some p | _ => None end.
Definition is_mkdir (e : event) : option string :=
  match e with Mkdir p => Some p | _ => None end.

(** The path of the keypoint archive of an image in a folder run with the
    output directory [d]. *)
Definition folder_archive (d image_name : string) : string :=
  posixpath.join d (posixpath.basename image_name ++ "_pose.npz").

(** The keypoint archive of an image under the three cases of the output
    policy: no output name, a folder run with an output directory, a single
    file with an output name. *)
Definition archive_of (out_name_provided : option string)
  (process_folder : bool) (image_name : string) : string :=
  match out_name_provided with
  | None => image_name ++ "_pose.npz"
  | Some d => if process_folder then folder_archive d image_name else d
  end.

(** ** Sample inputs *)

(** A one-pixel stack whose channel [c] holds the number [c + 1]. *)
Definition ramp_stack (channels : nat) : heatmaps :=
  Array3 1 1 channels (fun _ _ c => F32.of_Z (Z.of_nat c + 1)).

(** An all-zero image of three channels. *)
Definition black (h w : nat) : image := Array3 h w 3 (fun _ _ _ => 0%Z).

Definition red : list Z := [255; 0; 0]%Z.
Definition opaque : spec_float := S754_zero false.

(** 50.25 and 50.75 *)
Definition f50_25 : spec_float := S754_finite false 201 (-2).
Definition f50_75 : spec_float := S754_finite false 203 (-2).

(** A world with one folder, [imgs], holding two images of 2 rows, 1 column
    and 3 channels; the estimator finds every joint at the origin. *)
Definition small_picture : ndarray3 Z :=
  Array3 2 1 3 (fun i _ c => Z.of_nat (3 * i + c + 1)).

Definition small_world : World := {|
  isdir := fun p => String.eqb p "imgs";
  path_exists := fun p => String.eqb p "imgs";
  glob := fun _ => ["imgs/a.png"; "imgs/b.png"];
  imread := fun _ => Colour small_picture;
  float_of_string := fun s => if String.eqb s "1." then Some F64.one else None;
  estimate_pose := fun _ _ _ _ =>
    (Array2 2 14 (fun _ _ => S754_zero false),
     Array3 2 1 14 (fun _ _ c => F32.of_Z (Z.of_nat c)));
  h5_create := fun _ => None
|}.

(** [small_world] where only the folder [data] exists: a bundle whose path
    repeats the folder, [data/data/...], cannot be created. *)
Definition strict_world : World := {|
  isdir := fun p => String.eqb p "data";
  path_exists := fun p => String.eqb p "data";
  glob := fun _ => ["data/a.png"];
  imread := imread small_world;
  float_of_string := float_of_string small_world;
  estimate_pose := estimate_pose small_world;
  h5_create := fun p =>
    if pystr.startswith p "data/data/" then Some FileNotFoundError else None
|}.

Local Close Scope string_scope.

(** ** Further notions and sample inputs *)

(** Values of an 8-bit image, and colours with 8-bit entries. *)
Definition uint8_image (im : image) : Prop :=
  forall y x c, (0 <= at3 im y x c <= 255)%Z.

Definition uint8_colour (color : list Z) : Prop :=
  Forall (fun v => (0 <= v <= 255)%Z) color.

(** The float [1.0], as a transparency: nothing of the colour shows. *)
Definition clear : spec_float := F64.one.

(** The calls that select the backend. *)
Definition is_backend (e : event) : bool :=
  match e with
  | SetModeCpu | SetModeGpu | SetDevice _ => true
  | _ => false
  end.

(** A grey ramp of 2 rows and 2 columns. *)
Definition grey_ramp : ndarray2 Z :=
  Array2 2 2 (fun i j => Z.of_nat (2 * i + j)).

(** [small_world] with an estimator that returns only 13 channels. *)
Definition short_world : World := {|
  isdir := isdir small_world;
  path_exists := path_exists small_world;
  glob := glob small_world;
  imread := imread small_world;
  float_of_string := float_of_string small_world;
  estimate_pose := fun _ _ _ _ =>
    (Array2 2 14 (fun _ _ => S754_zero false),
     Array3 2 1 13 (fun _ _ c => F32.of_Z (Z.of_nat c)));
  h5_create := h5_create small_world
|}.

(** [small_world] with an empty folder and a grayscale file. *)
Definition grey_world : World := {|
  isdir := isdir small_world;
  path_exists := path_exists small_world;
  glob := fun _ => [];
  imread := fun _ => Gray grey_ramp;
  float_of_string := float_of_string small_world;
  estimate_pose := estimate_pose small_world;
  h5_create := h5_create small_world
|}.

Local Open Scope string_scope.

(** The inputs of a run: the files the pattern matches when [image_name] is
    a folder, the one file otherwise. *)
Definition input_images (w : World) (image_name suffix : string)
  : list string :=
  if isdir w image_name
  then glob w (posixpath.join image_name ("*" ++ suffix))
  else [image_name].

(** What a run does before it turns to the first image. *)
Definition prologue (w : World) (image_name : string)
  (out_name : option string) (use_cpu : bool) (gpu : Z) : list event :=
  (if use_cpu then [SetModeCpu] else [SetModeGpu; SetDevice gpu])
  ++ match out_name with
     | Some d =>
         if isdir w image_name && negb (path_exists w d) then [Mkdir d] else []
     | None => []
     end.

Local Close Scope string_scope.

(** The window [lo .. hi-1] can be cut out of an axis of length [n] in
    full: it lies inside, or it lies below zero within one length of it
    (where the bounds count from the far end). *)
Definition window_fits (n : nat) (lo hi : Z) : Prop :=
  (0 <= lo /\ hi <= Z.of_nat n)%Z \/ (hi < 0 /\ 0 <= lo + Z.of_nat n)%Z.

(** * Properties *)

(** ** Arrays and the remapper *)

Lemma bidx_lt (n i : nat) : i < n -> bidx n i = i.
Proof.
  unfold bidx. destruct (Nat.eqb_spec n 1) as [-> | _]; [lia | reflexivity].
Qed.

Lemma broadcast_len_same (n : nat) : broadcast_len n n = Some n.
Proof. unfold broadcast_len. now rewrite Nat.eqb_refl. Qed.

Lemma assignable_len_same (n : nat) : assignable_len n n = true.
Proof. unfold assignable_len. now rewrite Nat.eqb_refl. Qed.

Ltac in_range_chans d2 :=
  repeat match goal with
    | |- context [?k <? d2] =>
        replace (k <? d2) with true by (symmetry; apply Nat.ltb_lt; lia)
    end.

(** What a successful remap returns, channel by channel. *)
Lemma remap_spec (u : heatmaps) :
  14 <= dim2 u ->
  exists um2,
    remap u = Ok um2 /\
    dim0 um2 = dim0 u /\ dim1 um2 = dim1 u /\ dim2 um2 = 16 /\
    forall i j, i < dim0 u -> j < dim1 u ->
      (forall k, k < 6 -> at3 um2 i j k = at3 u i j k) /\
      at3 um2 i j 6 = F32.div (F32.add (at3 u i j 2) (at3 u i j 3)) F32.two /\
      at3 um2 i j 7 =
        F32.div
          (F32.add (F32.add (F32.mul F32.two (at3 um2 i j 6)) (at3 u i j 12))
                   (at3 u i j 13))
          F32.four /\
      (forall k, 8 <= k < 16 -> at3 um2 i j k = at3 u i j (k - 2)).
Proof.
  destruct u as [d0 d1 d2 f]. simpl. intros Hd.
  unfold remap, pelvis_of, thorax_of, chan, zip2, set_chan, map2, zeros3, range.
  unfold broadcast_len, assignable_len.
  simpl. in_range_chans d2.
  repeat (rewrite ?Nat.eqb_refl; simpl).
  eexists. split; [reflexivity|]. simpl.
  repeat split; try reflexivity.
  - intros k Hk.
    do 6 (destruct k as [|k]; [simpl; now rewrite ?(bidx_lt H), ?(bidx_lt H0)|]). lia.
  - now rewrite ?(bidx_lt H), ?(bidx_lt H0).
  - now rewrite ?(bidx_lt H), ?(bidx_lt H0).
  - intros k Hk.
    do 8 (destruct k as [|k]; [lia|]).
    do 8 (destruct k as [|k]; [simpl; now rewrite ?(bidx_lt H), ?(bidx_lt H0)|]). lia.
Qed.

Lemma remap_short (u : heatmaps) :
  dim2 u < 14 -> remap u = Raise IndexError.
Proof.
  destruct u as [d0 d1 d2 f]. simpl. intros Hd.
  unfold remap, pelvis_of, thorax_of, chan, zip2, map2, broadcast_len. simpl.
  do 14 (destruct d2 as [|d2];
         [repeat (rewrite ?Nat.eqb_refl; simpl); reflexivity|]).
  lia.
Qed.

(** C1: for every native stack with exactly 14 channels, [remap] returns a
    stack of the same height and width with exactly 16 channels; at every
    pixel, output channels 0 to 5 hold the values of native channels 0 to 5
    and output channels 8 to 15 those of native channels 6 to 13, unchanged.
    Channels 6 and 7 are computed from native channels 2, 3, 12 and 13 and
    are copies of no native channel: on the stack whose channel [c] holds
    [c + 1] they differ from every one of the 14 native values. *)
Theorem remap_copies_native_channels :
  (forall u : heatmaps,
      dim2 u = 14 ->
      exists um2,
        remap u = Ok um2 /\
        dim0 um2 = dim0 u /\ dim1 um2 = dim1 u /\ dim2 um2 = 16 /\
        forall i j, i < dim0 u -> j < dim1 u ->
          (forall k, k < 6 -> at3 um2 i j k = at3 u i j k) /\
          (forall k, 8 <= k < 16 -> at3 um2 i j k = at3 u i j (k - 2)) /\
          at3 um2 i j 6 =
            F32.div (F32.add (at3 u i j 2) (at3 u i j 3)) F32.two /\
          at3 um2 i j 7 =
            F32.div
              (F32.add
                 (F32.add (F32.mul F32.two (at3 um2 i j 6)) (at3 u i j 12))
                 (at3 u i j 13))
              F32.four) /\
  (exists um2,
      remap (ramp_stack 14) = Ok um2 /\
      forall k, k < 14 ->
        at3 um2 0 0 6 <> at3 (ramp_stack 14) 0 0 k /\
        at3 um2 0 0 7 <> at3 (ramp_stack 14) 0 0 k).
Proof.
  split.
  - intros u Hu.
    destruct (remap_spec u) as (um2 & Hr & H0 & H1 & H2 & Hpx); [lia|].
    exists um2. repeat (split; [assumption|]).
    intros i j Hi Hj. destruct (Hpx i j Hi Hj) as (Hlo & H6 & H7 & Hhi).
    repeat split; assumption.
  - destruct (remap_spec (ramp_stack 14)) as (um2 & Hr & _ & _ & _ & Hpx);
      [simpl; lia|].
    exists um2. split; [assumption|].
    destruct (Hpx 0 0) as (_ & H6 & H7 & _); [simpl; lia | simpl; lia |].
    rewrite H7, H6. intros k Hk.
    do 14 (destruct k as [|k]; [split; vm_compute; discriminate|]). lia.
Qed.

Lemma remap_copies_native_channels_witness :
  dim2 (ramp_stack 14) = 14 /\
  exists um2,
    remap (ramp_stack 14) = Ok um2 /\ dim2 um2 = 16 /\
    at3 um2 0 0 9 = F32.of_Z 8.
Proof.
  split; [reflexivity|].
  destruct (proj1 remap_copies_native_channels (ramp_stack 14) eq_refl)
    as (um2 & Hr & _ & _ & H2 & Hpx).
  exists um2. split; [exact Hr|]. split; [exact H2|].
  destruct (Hpx 0 0 (Nat.lt_0_succ 0) (Nat.lt_0_succ 0)) as (_ & Hhi & _).
  rewrite (Hhi 9); [reflexivity | lia].
Defined.

(** C2: for every 14-channel native stack and every pixel, output channel 6
    is the mean [(native 2 + native 3) / 2] and output channel 7 is
    [(2 * pelvis + native 12 + native 13) / 4], where pelvis is the value of
    channel 6 at that pixel; the operations are those of binary32, in the
    order the code applies them. *)
Theorem remap_pelvis_thorax (u : heatmaps) (i j : nat) :
  dim2 u = 14 -> i < dim0 u -> j < dim1 u ->
  exists um2,
    remap u = Ok um2 /\
    at3 um2 i j 6 = F32.div (F32.add (at3 u i j 2) (at3 u i j 3)) F32.two /\
    at3 um2 i j 7 =
      F32.div
        (F32.add (F32.add (F32.mul F32.two (at3 um2 i j 6)) (at3 u i j 12))
                 (at3 u i j 13))
        F32.four.
Proof.
  intros Hu Hi Hj.
  destruct (remap_spec u) as (um2 & Hr & _ & _ & _ & Hpx); [lia|].
  exists um2. split; [assumption|].
  destruct (Hpx i j Hi Hj) as (_ & H6 & H7 & _). now split.
Qed.

Lemma remap_pelvis_thorax_witness :
  exists um2,
    remap (ramp_stack 14) = Ok um2 /\
    at3 um2 0 0 6 = S754_finite false 14680064 (-22) /\
    at3 um2 0 0 7 = S754_finite false 8912896 (-20).
Proof.
  destruct (@remap_pelvis_thorax (ramp_stack 14) 0 0 eq_refl
              (Nat.lt_0_succ 0) (Nat.lt_0_succ 0)) as (um2 & Hr & H6 & H7).
  exists um2. split; [exact Hr|].
  rewrite H7, H6. split; vm_compute; reflexivity.
Defined.

(** C7, as the spec has it, fails: a stack with 15 channels is not rejected. *)
Lemma remap_accepts_15_channels :
  dim2 (ramp_stack 15) <> 14 /\ raises (remap (ramp_stack 15)) = false.
Proof. split; [discriminate | reflexivity]. Qed.

(** C7, amended: the remapping step rejects a native stack, with an
    [IndexError], exactly when it has fewer than 14 channels; a stack with
    14 channels or more yields a 16-channel stack. *)
Theorem remap_rejects_short_stacks (u : heatmaps) :
  (dim2 u < 14 -> remap u = Raise IndexError) /\
  (14 <= dim2 u -> exists um2, remap u = Ok um2 /\ dim2 um2 = 16).
Proof.
  split.
  - apply remap_short.
  - intros H. destruct (remap_spec u H) as (um2 & Hr & _ & _ & H2 & _).
    now exists um2.
Qed.

Lemma remap_rejects_short_stacks_witness :
  remap (ramp_stack 13) = Raise IndexError /\
  exists um2, remap (ramp_stack 15) = Ok um2 /\ dim2 um2 = 16.
Proof.
  split.
  - apply (proj1 (remap_rejects_short_stacks (ramp_stack 13))). simpl. lia.
  - apply (proj2 (remap_rejects_short_stacks (ramp_stack 15))). simpl. lia.
Defined.

(** ** Slices and the rasterizer *)

Lemma slice_inside (n : nat) (lo hi : Z) :
  (0 <= lo)%Z -> (lo <= hi)%Z -> (hi <= Z.of_nat n)%Z ->
  slice_start n lo = Z.to_nat lo /\ slice_len n lo hi = Z.to_nat (hi - lo).
Proof.
  intros H0 H1 H2. unfold slice_start, slice_len, slice_bound.
  destruct (Z.ltb_spec lo 0), (Z.ltb_spec hi 0); lia.
Qed.


Lemma slice_len_crossing (n : nat) (lo hi : Z) :
  crosses_edge n lo hi -> slice_len n lo hi < Z.to_nat (hi - lo).
Proof.
  unfold crosses_edge, slice_len, slice_bound. intros H.
  destruct (Z.ltb_spec lo 0), (Z.ltb_spec hi 0); lia.
Qed.

Lemma slice_wraps (n : nat) (lo hi : Z) :
  (hi < 0)%Z -> (0 <= lo + Z.of_nat n)%Z -> (lo <= hi)%Z ->
  slice_start n lo = slice_start n (lo + Z.of_nat n) /\
  slice_len n lo hi = slice_len n (lo + Z.of_nat n) (hi + Z.of_nat n).
Proof.
  intros H1 H2 H3. unfold slice_start, slice_len, slice_bound.
  destruct (Z.ltb_spec lo 0), (Z.ltb_spec hi 0),
    (Z.ltb_spec (lo + Z.of_nat n) 0), (Z.ltb_spec (hi + Z.of_nat n) 0);
    split; f_equal; lia.
Qed.


Lemma slice_len_fits (n : nat) (lo hi : Z) :
  (lo < hi)%Z ->
  slice_len n lo hi = Z.to_nat (hi - lo) <-> window_fits n lo hi.
Proof.
  intros H. unfold slice_len, slice_bound, window_fits.
  destruct (Z.ltb_spec lo 0), (Z.ltb_spec hi 0); lia.
Qed.

Lemma ogrid_len_width (cx radius : Z) :
  ogrid_len radius = Z.to_nat (cx + radius - (cx - radius)).
Proof. unfold ogrid_len. f_equal. lia. Qed.

(** A window whose rows or columns cross an edge cannot be indexed with the
    boolean array of the disc. *)
Lemma npcircle_int_crossing (im : image) (cx cy radius : Z) (color : list Z)
  (transparency : spec_float) :
  crosses_edge (dim0 im) (cy - radius) (cy + radius) \/
  crosses_edge (dim1 im) (cx - radius) (cx + radius) ->
  npcircle_int im cx cy radius color transparency = Raise IndexError.
Proof.
  intros H. unfold npcircle_int.
  replace ((ogrid_len radius =? 0)
           || ((ogrid_len radius
                =? slice_len (dim0 im) (cy - radius) (cy + radius))
               && (ogrid_len radius
                   =? slice_len (dim1 im) (cx - radius) (cx + radius))))
    with false; [reflexivity|].
  symmetry. apply orb_false_iff. split.
  - apply Nat.eqb_neq. unfold ogrid_len, crosses_edge in *. lia.
  - apply andb_false_iff.
    destruct H as [H | H]; apply slice_len_crossing in H; [left | right];
      apply Nat.eqb_neq.
    + rewrite (@ogrid_len_width cy radius). lia.
    + rewrite (@ogrid_len_width cx radius). lia.
Qed.

(** A window inside the image: the call succeeds and changes exactly the
    pixels that [covered] describes. *)
Lemma npcircle_int_inside (im : image) (cx cy radius : Z) (color : list Z)
  (transparency : spec_float) :
  (0 <= radius)%Z ->
  (0 <= cy - radius)%Z -> (cy + radius <= Z.of_nat (dim0 im))%Z ->
  (0 <= cx - radius)%Z -> (cx + radius <= Z.of_nat (dim1 im))%Z ->
  List.length color = dim2 im ->
  exists im',
    npcircle_int im cx cy radius color transparency = Ok im' /\
    dim0 im' = dim0 im /\ dim1 im' = dim1 im /\ dim2 im' = dim2 im /\
    forall y x c, c < dim2 im ->
      at3 im' y x c =
        if covered cx cy radius y x
        then blend transparency (at3 im y x c) (nth c color 0%Z)
        else at3 im y x c.
Proof.
  intros Hr Hy0 Hy1 Hx0 Hx1 Hc. unfold npcircle_int.
  destruct (@slice_inside (dim0 im) (cy - radius) (cy + radius)) as [Ey0 Eh];
    try lia.
  destruct (@slice_inside (dim1 im) (cx - radius) (cx + radius)) as [Ex0 Ew];
    try lia.
  rewrite Ey0, Eh, Ex0, Ew, Hc.
  rewrite <- (@ogrid_len_width cy radius), <- (@ogrid_len_width cx radius).
  rewrite !Nat.eqb_refl, orb_true_r. simpl.
  eexists. split; [reflexivity|]. simpl. repeat split.
  intros y x c Hlt. rewrite (bidx_lt Hlt).
  unfold covered, disc_index, ogrid_at, ogrid_len.
  destruct (Z.leb_spec (cy - radius) (Z.of_nat y)) as [A1|A1];
    destruct (Z.ltb_spec (Z.of_nat y) (cy + radius)) as [A2|A2];
    destruct (Z.leb_spec (cx - radius) (Z.of_nat x)) as [A3|A3];
    destruct (Z.ltb_spec (Z.of_nat x) (cx + radius)) as [A4|A4];
    destruct (Nat.leb_spec (Z.to_nat (cy - radius)) y) as [B1|B1];
    destruct (Nat.ltb_spec y (Z.to_nat (cy - radius)
                + Z.to_nat (radius - - radius))) as [B2|B2];
    destruct (Nat.leb_spec (Z.to_nat (cx - radius)) x) as [B3|B3];
    destruct (Nat.ltb_spec x (Z.to_nat (cx - radius)
                + Z.to_nat (radius - - radius))) as [B4|B4];
    simpl; try lia; try reflexivity.
  replace (- radius + Z.of_nat (x - Z.to_nat (cx - radius)))%Z
    with (Z.of_nat x - cx)%Z by lia.
  replace (- radius + Z.of_nat (y - Z.to_nat (cy - radius)))%Z
    with (Z.of_nat y - cy)%Z by lia.
  reflexivity.
Qed.

(** [int] on a finite float is its integer part: the exact value rounded
    toward zero. *)
Lemma py_int_finite (f : spec_float) :
  is_finite f = true -> py_int (PyFloat f) = Ok (integer_part f).
Proof.
  destruct f as [s | s | | s m e]; try discriminate; intros _;
    try reflexivity.
  unfold py_int, integer_part, float_num, float_den, trunc_mag. f_equal.
  destruct (Z.le_gt_cases 0 e) as [He | He].
  - rewrite Z.max_r, Z.max_l by lia. rewrite Z.pow_0_r, Z.quot_1_r.
    rewrite Z.shiftl_mul_pow2 by lia. unfold cond_Zopp.
    destruct s; [now rewrite Z.mul_opp_l | reflexivity].
  - rewrite Z.max_l, Z.max_r by lia. rewrite Z.mul_1_r.
    assert (Hd : (0 < 2 ^ (- e))%Z) by (apply Z.pow_pos_nonneg; lia).
    replace e with (- (- e))%Z at 1 by lia.
    rewrite <- Z.shiftr_opp_r, Z.opp_involutive.
    rewrite Z.shiftr_div_pow2 by lia.
    unfold cond_Zopp. destruct s.
    + rewrite Z.quot_opp_l by lia.
      now rewrite Z.quot_div_nonneg by lia.
    + now rewrite Z.quot_div_nonneg by lia.
Qed.

(** With [transparency = 0.0] the blend is an overwrite: the old value
    times zero is zero, and zero plus the colour is the colour. *)
Lemma uint8_times_zero (old : Z) :
  (0 <= old <= 255)%Z ->
  F32.mul (F32.of_Z old) (f32_of_f64 opaque) = S754_zero false.
Proof.
  intros Ho.
  assert (T : forallb
                (fun o =>
                   match F32.mul (F32.of_Z (Z.of_nat o)) (f32_of_f64 opaque)
                   with
                   | S754_zero false => true
                   | _ => false
                   end) (seq 0 256) = true)
    by (vm_compute; reflexivity).
  rewrite forallb_forall in T. specialize (T (Z.to_nat old)).
  rewrite in_seq, Z2Nat.id in T by lia. specialize (T ltac:(lia)).
  destruct (F32.mul _ _) as [[|] | | |]; try discriminate. reflexivity.
Qed.

Lemma zero_plus_colour (c : Z) :
  (0 <= c <= 255)%Z ->
  uint8_of_f32
    (F32.add (S754_zero false)
       (F32.mul (F32.of_Z c) (f32_of_f64 (F64.sub F64.one opaque)))) = c.
Proof.
  intros Hc.
  assert (T : forallb
                (fun n =>
                   Z.eqb
                     (uint8_of_f32
                        (F32.add (S754_zero false)
                           (F32.mul (F32.of_Z (Z.of_nat n))
                              (f32_of_f64 (F64.sub F64.one opaque)))))
                     (Z.of_nat n)) (seq 0 256) = true)
    by (vm_compute; reflexivity).
  rewrite forallb_forall in T. specialize (T (Z.to_nat c)).
  rewrite in_seq, Z2Nat.id in T by lia. specialize (T ltac:(lia)).
  now apply Z.eqb_eq.
Qed.

Lemma blend_opaque (old c : Z) :
  (0 <= old <= 255)%Z -> (0 <= c <= 255)%Z -> blend opaque old c = c.
Proof.
  intros Ho Hc. unfold blend. rewrite uint8_times_zero by assumption.
  now apply zero_plus_colour.
Qed.

Lemma npcircle_of_ints (im : image) (cx cy radius : pynum) (icx icy ir : Z)
  (color : list Z) (transparency : spec_float) :
  py_int radius = Ok ir -> py_int cx = Ok icx -> py_int cy = Ok icy ->
  _npcircle im cx cy radius color transparency =
  match npcircle_int im icx icy ir color transparency with
  | Ok im' => (im', None)
  | Raise e => (im, Some e)
  end.
Proof. intros Hr Hx Hy. unfold _npcircle. now rewrite Hr, Hx, Hy. Qed.

(** C5: the disc of radius 8 at (50, 50), drawn opaque in [255, 0, 0] on a
    zeroed 100 by 100 image.  The call succeeds and sets exactly the pixels
    of [covered]: offsets from -8 to 7 within distance 8 of the centre.  The
    pixel at offset (8, 0), column 58 of row 50, satisfies
    [dx^2 + dy^2 <= 64] and stays black, while its mirror image at offset
    (-8, 0) is red; likewise for offsets (0, 8) and (0, -8). *)
Theorem npcircle_radius_8_at_50_50 :
  exists im',
    _npcircle (black 100 100) (PyInt 50) (PyInt 50) (PyInt 8) red opaque
      = (im', None) /\
    (forall y x,
        at3 im' y x 0 = (if covered 50 50 8 y x then 255 else 0)%Z /\
        at3 im' y x 1 = 0%Z /\ at3 im' y x 2 = 0%Z) /\
    (in_disc 50 50 8 50 58 = true /\ at3 im' 50 58 0 = 0%Z) /\
    (in_disc 50 50 8 50 42 = true /\ at3 im' 50 42 0 = 255%Z) /\
    (in_disc 50 50 8 58 50 = true /\ at3 im' 58 50 0 = 0%Z) /\
    (in_disc 50 50 8 42 50 = true /\ at3 im' 42 50 0 = 255%Z).
Proof.
  destruct (@npcircle_int_inside (black 100 100) 50 50 8 red opaque)
    as (im' & Hrun & _ & _ & _ & Hpx); try (simpl; lia); try reflexivity.
  exists im'. split.
  - rewrite (@npcircle_of_ints _ _ _ _ 50%Z 50%Z 8%Z) by reflexivity.
    now rewrite Hrun.
  - assert (Hall : forall y x,
               at3 im' y x 0 = (if covered 50 50 8 y x then 255 else 0)%Z /\
               at3 im' y x 1 = 0%Z /\ at3 im' y x 2 = 0%Z).
    { intros y x. rewrite !Hpx by (simpl; lia).
      destruct (covered 50 50 8 y x); [|now repeat split].
      simpl. rewrite !blend_opaque by lia. now repeat split. }
    split; [exact Hall|].
    repeat split; try reflexivity;
      match goal with
      | |- at3 im' ?y ?x 0 = _ => rewrite (proj1 (Hall y x)); reflexivity
      end.
Qed.






(** C10: the centre and the radius go through [int], which on a finite float
    is the integer part, the value rounded toward zero; the disc is the one
    of the truncated numbers, so two centres with the same integer parts,
    whatever their fractions, give the same result. *)
Theorem npcircle_truncates_coordinates (im : image)
  (cx cy r cx' cy' : spec_float) (color : list Z) (transparency : spec_float) :
  is_finite cx = true -> is_finite cy = true -> is_finite r = true ->
  is_finite cx' = true -> is_finite cy' = true ->
  integer_part cx = integer_part cx' -> integer_part cy = integer_part cy' ->
  py_int (PyFloat cx) = Ok (Z.quot (float_num cx) (float_den cx)) /\
  py_int (PyFloat cy) = Ok (Z.quot (float_num cy) (float_den cy)) /\
  py_int (PyFloat r) = Ok (Z.quot (float_num r) (float_den r)) /\
  _npcircle im (PyFloat cx) (PyFloat cy) (PyFloat r) color transparency =
    _npcircle im (PyInt (integer_part cx)) (PyInt (integer_part cy))
      (PyInt (integer_part r)) color transparency /\
  forall radius : pynum,
    _npcircle im (PyFloat cx) (PyFloat cy) radius color transparency =
    _npcircle im (PyFloat cx') (PyFloat cy') radius color transparency.
Proof.
  intros Fx Fy Fr Fx' Fy' Ex Ey.
  repeat split; try (now apply py_int_finite).
  - unfold _npcircle. now rewrite !py_int_finite.
  - intros radius. unfold _npcircle.
    rewrite !py_int_finite by assumption. now rewrite Ex, Ey.
Qed.

Lemma npcircle_truncates_coordinates_witness :
  f50_25 <> f50_75 /\
  py_int (PyFloat f50_75) = Ok 50%Z /\
  _npcircle (black 100 100) (PyFloat f50_25) (PyFloat f50_75) (PyInt 8)
    red opaque =
  _npcircle (black 100 100) (PyFloat f50_75) (PyFloat f50_25) (PyInt 8)
    red opaque.
Proof.
  split; [discriminate|].
  destruct (@npcircle_truncates_coordinates (black 100 100)
              f50_25 f50_75 f50_25 f50_75 f50_25 red opaque
              eq_refl eq_refl eq_refl eq_refl eq_refl eq_refl eq_refl)
    as (_ & Hy & _ & _ & Hsame).
  split; [exact Hy | exact (Hsame (PyInt 8))].
Defined.

(** ** Traces of the entry point *)

Lemma paths_of_app (sel : event -> option string) (a b : list event) :
  paths_of sel (a ++ b) = paths_of sel a ++ paths_of sel b.
Proof.
  induction a as [|e a IH]; simpl; [reflexivity|].
  destruct (sel e); simpl; now rewrite IH.
Qed.

Lemma trace_bind {A B : Type} (m : M A) (k : A -> M B) :
  trace (bind m k) =
  match outcome m with
  | Ok a => trace m ++ trace (k a)
  | Raise _ => trace m
  end.
Proof.
  destruct m as [tr [a | e]]; simpl; [|reflexivity].
  now destruct (k a).
Qed.

Lemma outcome_bind {A B : Type} (m : M A) (k : A -> M B) :
  outcome (bind m k) =
  match outcome m with
  | Ok a => outcome (k a)
  | Raise e => Raise e
  end.
Proof.
  destruct m as [tr [a | e]]; simpl; [|reflexivity].
  now destruct (k a).
Qed.

(** Drawing the joints emits nothing. *)
Lemma draw_joint_silent (pose : ndarray2 spec_float) (p_idx : nat)
  (visim : image) : trace (draw_joint pose p_idx visim) = [].
Proof.
  unfold draw_joint.
  destruct (getitem2 pose 0 p_idx) as [cx | e]; [|reflexivity].
  destruct (getitem2 pose 1 p_idx) as [cy | e]; [|reflexivity].
  simpl. now destruct (_npcircle _ _ _ _ _ _) as [v [e|]].
Qed.

Lemma draw_loop_silent (pose : ndarray2 spec_float) (l : list nat)
  (visim : image) : trace (for_each_M l (draw_joint pose) visim) = [].
Proof.
  revert visim. induction l as [|p l IH]; intros visim; [reflexivity|].
  simpl. rewrite trace_bind, draw_joint_silent.
  destruct (outcome _); [apply IH | reflexivity].
Qed.

(** What one turn of the loop emits, given the archive name [o] it
    settles on. *)
Lemma process_image_paths (w : World) (prov : option string) (pf : bool)
  (scales : list spec_float) (vis : bool) (img : string)
  (out : option string) (o : string) :
  next_out_name prov pf out img = Some o ->
  let m := process_image w prov pf scales vis img out in
  paths_of is_savez (trace m) = [o] /\
  paths_of is_h5 (trace m) = [h5_name img] /\
  paths_of is_mkdir (trace m) = [] /\
  (paths_of is_imsave (trace m) = [] \/
   vis = true /\
   paths_of is_imsave (trace m) = [(o ++ "_vis.png")%string]) /\
  forall r, outcome m = Ok r ->
    r = Some o /\
    paths_of is_imsave (trace m) =
      if vis then [(o ++ "_vis.png")%string] else [].
Proof.
  intros Ho. unfold process_image. rewrite Ho.
  destruct (estimate_pose w _ _ _ _) as [pose um].
  pose proof (draw_loop_silent pose (range 0 14)
                (visim_of (swapaxes02 (load_image w img)))) as Hs.
  set (loop := for_each_M (range 0 14) (draw_joint pose) _) in *.
  destruct loop as [tr [v | e]]; simpl in Hs; subst tr;
    destruct (h5_create w (h5_name img)) as [e0|];
    destruct (remap um) as [um2 | e']; destruct vis; simpl;
    repeat split; auto; try discriminate; congruence.
Qed.

Lemma next_out_name_archive (prov : option string) (pf : bool)
  (out : option string) (img : string) :
  (forall d, prov = Some d -> pf = false -> out = Some d) ->
  next_out_name prov pf out img = Some (archive_of prov pf img).
Proof.
  intros Hinv. unfold next_out_name, archive_of, folder_archive.
  destruct prov as [d|]; [|reflexivity].
  destruct pf; [reflexivity|]. now apply Hinv.
Qed.

(** The whole loop: the archives and bundles of the images reached, in
    order; every image is reached when the loop ends without an exception. *)
Lemma loop_paths (w : World) (prov : option string) (pf : bool)
  (scales : list spec_float) (vis : bool) (images : list string) :
  forall out : option string,
  (forall d, prov = Some d -> pf = false -> out = Some d) ->
  let m := for_each_M images (process_image w prov pf scales vis) out in
  let vis_of := fun i => (archive_of prov pf i ++ "_vis.png")%string in
  exists n,
    n <= List.length images /\ (images <> [] -> 0 < n) /\
    paths_of is_savez (trace m) = map (archive_of prov pf) (firstn n images) /\
    paths_of is_h5 (trace m) = map h5_name (firstn n images) /\
    paths_of is_mkdir (trace m) = [] /\
    (exists k, k <= n /\
       paths_of is_imsave (trace m) =
         if vis then map vis_of (firstn k images) else []) /\
    forall r, outcome m = Ok r ->
      n = List.length images /\
      paths_of is_imsave (trace m) = if vis then map vis_of images else [].
Proof.
  induction images as [|img images IH]; intros out Hinv; simpl.
  - exists 0. repeat split; auto.
    + intros H. now contradiction H.
    + exists 0. split; [lia | now destruct vis].
    + now destruct vis.
  - pose proof (@next_out_name_archive prov pf out img Hinv) as Ho.
    destruct (@process_image_paths w prov pf scales vis img out _ Ho)
      as (Hs & Hh & Hm & Hi & Hok).
    rewrite trace_bind, outcome_bind.
    destruct (outcome (process_image w prov pf scales vis img out))
      as [r | e] eqn:Er.
    + destruct (Hok r eq_refl) as [-> Hvis].
      destruct (IH (Some (archive_of prov pf img))) as
        (n & Hn & _ & Is & Ih & Im & (k & Hk & Ii) & Iok).
      { intros d -> ->. reflexivity. }
      exists (S n). rewrite !paths_of_app, Hs, Hh, Hm, Is, Ih, Im, Hvis, Ii.
      simpl. split; [lia|]. split; [lia|].
      split; [reflexivity|]. split; [reflexivity|]. split; [reflexivity|].
      split.
      * exists (S k). split; [lia | now destruct vis].
      * intros r Hr. destruct (Iok r Hr) as [-> Hall]. split; [reflexivity|].
        rewrite <- Ii, Hall. now destruct vis.
    + exists 1. rewrite Hs, Hh, Hm. simpl.
      split; [lia|]. split; [lia|].
      split; [reflexivity|]. split; [reflexivity|]. split; [reflexivity|].
      split; [|discriminate].
      destruct Hi as [-> | [Hv ->]]; [exists 0 | exists 1];
        (split; [lia | destruct vis; try discriminate; reflexivity]).
Qed.

(** A whole run whose scales parse: which paths it hands to the archive
    writer, the bundle writer, [mkdir] and the preview writer. *)
Lemma run_paths (w : World) (image_name : string) (out_name : option string)
  (scales : string) (vis : bool) (suffix : string) (use_cpu : bool) (gpu : Z)
  (fs : list spec_float) :
  parse_scales w (pystr.split ","%char scales) = Ok fs ->
  let pf := isdir w image_name in
  let images :=
    if pf then glob w (posixpath.join image_name ("*" ++ suffix))
    else [image_name] in
  let run := predict_pose_from w image_name out_name scales vis suffix
               use_cpu gpu in
  let vis_of := fun i => (archive_of out_name pf i ++ "_vis.png")%string in
  exists n,
    n <= List.length images /\ (images <> [] -> 0 < n) /\
    paths_of is_savez (trace run) =
      map (archive_of out_name pf) (firstn n images) /\
    paths_of is_h5 (trace run) = map h5_name (firstn n images) /\
    paths_of is_mkdir (trace run) =
      match out_name with
      | Some d => if pf && negb (path_exists w d) then [d] else []
      | None => []
      end /\
    (exists k, k <= n /\
       paths_of is_imsave (trace run) =
         if vis then map vis_of (firstn k images) else []) /\
    (outcome run = Ok tt ->
     n = List.length images /\
     paths_of is_imsave (trace run) = if vis then map vis_of images else []).
Proof.
  intros Hp pf images run vis_of. subst run vis_of images pf.
  unfold predict_pose_from. rewrite Hp.
  destruct (isdir w image_name) eqn:Ed;
    cbv beta iota zeta delta [lift bind];
    [set (images := glob w _) | set (images := [image_name])];
    match goal with
    | |- context [process_image w out_name ?pf fs vis] =>
        destruct (@loop_paths w out_name pf fs vis images out_name)
          as (n & Hn & Hpos & Hs & Hh & Hm & Hi & Hok); [now auto|];
        exists n;
        set (loop := for_each_M images _ out_name) in *
    end;
    destruct loop as [tr r]; simpl in Hs, Hh, Hm, Hi, Hok;
    (split; [exact Hn|]); (split; [exact Hpos|]);
    destruct use_cpu, out_name as [d|]; simpl;
    try destruct (path_exists w d); simpl;
    destruct r as [r | e]; simpl;
    rewrite ?app_nil_r, ?Hs, ?Hh, ?Hm;
    (split; [reflexivity|]); (split; [reflexivity|]);
    (split; [reflexivity|]); (split; [exact Hi|]);
    try discriminate; intros _; exact (Hok r eq_refl).
Qed.

(** ** The array handed to the disc overlay *)

(** Line 176 flips the last axis of the array that line 166 has already
    swapped: the result has the channels first and the rows, reversed,
    last. *)
Lemma visim_of_swapped (im : image) :
  let visim := visim_of (swapaxes02 im) in
  dim0 visim = dim2 im /\ dim1 visim = dim1 im /\ dim2 visim = dim0 im /\
  forall c x y, at3 visim c x y = at3 im (dim0 im - 1 - y) x c.
Proof. repeat split. Qed.





(** ** Output naming *)

Local Open Scope string_scope.



(** C4: the bundle path of an image is the same whatever the output name,
    but it is not the directory of the input joined with its stem and
    [.h5]: for the relative path [data/a.png] the run writes
    [data/data/a.h5], with or without an output name, where the spec's
    wording gives [data/a.h5].  The two agree on [/data/a.png] and on
    [a.png]. *)
Theorem heatmap_bundle_path_doubles_directory :
  paths_of is_h5
    (trace (predict_pose_from small_world "data/a.png" None "1." false ".png"
              false 0))
    = ["data/data/a.h5"] /\
  paths_of is_h5
    (trace (predict_pose_from small_world "data/a.png" (Some "out.npz") "1."
              false ".png" false 0))
    = ["data/data/a.h5"] /\
  h5_name "data/a.png" = "data/data/a.h5" /\
  spec_h5_name "data/a.png" = "data/a.h5" /\
  h5_name "/data/a.png" = spec_h5_name "/data/a.png" /\
  h5_name "a.png" = spec_h5_name "a.png".
Proof. repeat split; vm_compute; reflexivity. Qed.

(** C8: what the disc overlay receives.  For the file of 2 rows, 1 column
    and 3 channels of [small_world], the processing image is 2 x 1 x 3 and
    the array handed to the first [_npcircle] call is 3 x 1 x 2: the swapped
    array with its rows reversed and its channels in the order they had,
    not the 2 x 1 x 3 image with the channels reversed.  The disc does not
    fit it, and the run ends in [IndexError] with no preview written. *)
Theorem overlay_gets_swapped_array :
  let image := load_image small_world "a.png" in
  let visim := visim_of (swapaxes02 image) in
  let rgb := flip2 image in
  let run := predict_pose_from small_world "a.png" None "1." true ".png"
               false 0 in
  (dim0 image, dim1 image, dim2 image) = (2, 1, 3) /\
  (dim0 rgb, dim1 rgb, dim2 rgb) = (2, 1, 3) /\
  (dim0 visim, dim1 visim, dim2 visim) = (3, 1, 2) /\
  (forall c x y, at3 visim c x y = at3 image (1 - y) x c) /\
  (forall y x c, at3 rgb y x c = at3 image y x (2 - c)) /\
  at3 rgb 0 0 0 = 1%Z /\ at3 visim 0 0 0 = 6%Z /\
  outcome run = Raise IndexError /\
  paths_of is_imsave (trace run) = [].
Proof. repeat split. Qed.

Local Close Scope string_scope.

(** * Further properties of the rasterizer *)

(** The window fits the image and the colour has one entry per channel, or a
    single entry: the general form of a successful call. *)
Lemma npcircle_int_window (im : image) (cx cy radius : Z) (color : list Z)
  (transparency : spec_float) :
  (0 <= radius)%Z ->
  (0 <= cy - radius)%Z -> (cy + radius <= Z.of_nat (dim0 im))%Z ->
  (0 <= cx - radius)%Z -> (cx + radius <= Z.of_nat (dim1 im))%Z ->
  List.length color = dim2 im \/ List.length color = 1 ->
  exists im',
    npcircle_int im cx cy radius color transparency = Ok im' /\
    dim0 im' = dim0 im /\ dim1 im' = dim1 im /\ dim2 im' = dim2 im /\
    forall y x c,
      at3 im' y x c =
        if covered cx cy radius y x
        then blend transparency (at3 im y x c)
               (nth (bidx (List.length color) c) color 0%Z)
        else at3 im y x c.
Proof.
  intros Hr Hy0 Hy1 Hx0 Hx1 Hc. unfold npcircle_int.
  destruct (@slice_inside (dim0 im) (cy - radius) (cy + radius)) as [Ey0 Eh];
    try lia.
  destruct (@slice_inside (dim1 im) (cx - radius) (cx + radius)) as [Ex0 Ew];
    try lia.
  rewrite Ey0, Eh, Ex0, Ew.
  rewrite <- (@ogrid_len_width cy radius), <- (@ogrid_len_width cx radius).
  rewrite !Nat.eqb_refl, orb_true_r.
  replace ((List.length color =? dim2 im) || (List.length color =? 1))
    with true
    by (symmetry; apply orb_true_iff;
        destruct Hc; [left | right]; now apply Nat.eqb_eq).
  eexists. split; [reflexivity|]. simpl. repeat split.
  intros y x c.
  unfold covered, disc_index, ogrid_at, ogrid_len.
  destruct (Z.leb_spec (cy - radius) (Z.of_nat y)) as [A1|A1];
    destruct (Z.ltb_spec (Z.of_nat y) (cy + radius)) as [A2|A2];
    destruct (Z.leb_spec (cx - radius) (Z.of_nat x)) as [A3|A3];
    destruct (Z.ltb_spec (Z.of_nat x) (cx + radius)) as [A4|A4];
    destruct (Nat.leb_spec (Z.to_nat (cy - radius)) y) as [B1|B1];
    destruct (Nat.ltb_spec y (Z.to_nat (cy - radius)
                + Z.to_nat (radius - - radius))) as [B2|B2];
    destruct (Nat.leb_spec (Z.to_nat (cx - radius)) x) as [B3|B3];
    destruct (Nat.ltb_spec x (Z.to_nat (cx - radius)
                + Z.to_nat (radius - - radius))) as [B4|B4];
    simpl; try lia; try reflexivity.
  replace (- radius + Z.of_nat (x - Z.to_nat (cx - radius)))%Z
    with (Z.of_nat x - cx)%Z by lia.
  replace (- radius + Z.of_nat (y - Z.to_nat (cy - radius)))%Z
    with (Z.of_nat y - cy)%Z by lia.
  reflexivity.
Qed.

Lemma nth_uint8 (color : list Z) (c : nat) :
  uint8_colour color -> (0 <= nth c color 0 <= 255)%Z.
Proof.
  intros H. revert c. induction H as [|v l Hv _ IH]; intros [|c]; simpl;
    try lia. apply IH.
Qed.

(** With [transparency = 1.0] the blend keeps the old value. *)
Lemma colour_times_zero (c : Z) :
  (0 <= c <= 255)%Z ->
  F32.mul (F32.of_Z c) (f32_of_f64 (F64.sub F64.one clear)) = S754_zero false.
Proof.
  intros Hc.
  assert (T : forallb
                (fun n =>
                   match F32.mul (F32.of_Z (Z.of_nat n))
                           (f32_of_f64 (F64.sub F64.one clear))
                   with
                   | S754_zero false => true
                   | _ => false
                   end) (seq 0 256) = true)
    by (vm_compute; reflexivity).
  rewrite forallb_forall in T. specialize (T (Z.to_nat c)).
  rewrite in_seq, Z2Nat.id in T by lia. specialize (T ltac:(lia)).
  destruct (F32.mul _ _) as [[|] | | |]; try discriminate. reflexivity.
Qed.

Lemma old_plus_zero (old : Z) :
  (0 <= old <= 255)%Z ->
  uint8_of_f32
    (F32.add (F32.mul (F32.of_Z old) (f32_of_f64 clear)) (S754_zero false))
  = old.
Proof.
  intros Ho.
  assert (T : forallb
                (fun n =>
                   Z.eqb
                     (uint8_of_f32
                        (F32.add
                           (F32.mul (F32.of_Z (Z.of_nat n)) (f32_of_f64 clear))
                           (S754_zero false)))
                     (Z.of_nat n)) (seq 0 256) = true)
    by (vm_compute; reflexivity).
  rewrite forallb_forall in T. specialize (T (Z.to_nat old)).
  rewrite in_seq, Z2Nat.id in T by lia. specialize (T ltac:(lia)).
  now apply Z.eqb_eq.
Qed.

Lemma blend_clear (old c : Z) :
  (0 <= old <= 255)%Z -> (0 <= c <= 255)%Z -> blend clear old c = old.
Proof.
  intros Ho Hc. unfold blend. rewrite colour_times_zero by assumption.
  now apply old_plus_zero.
Qed.

Ltac npcircle_ints Hr Hx Hy :=
  match goal with
  | |- context [_npcircle ?im ?cx ?cy ?radius ?color ?t] =>
      rewrite (npcircle_of_ints im cx cy radius color t Hr Hx Hy)
  end.

(** X1: when the window of rows [cy-r .. cy+r-1] and columns
    [cx-r .. cx+r-1] lies inside the image and the colour has one entry per
    channel, the call raises nothing, keeps the shape, and replaces exactly
    the pixels of the window within distance [r] of the centre by the blend
    of their old value and the colour; every other pixel keeps its value. *)
Theorem npcircle_draws_inside (im : image) (cx cy radius : pynum)
  (icx icy ir : Z) (color : list Z) (transparency : spec_float) :
  py_int radius = Ok ir -> py_int cx = Ok icx -> py_int cy = Ok icy ->
  (0 <= ir)%Z ->
  (0 <= icy - ir)%Z -> (icy + ir <= Z.of_nat (dim0 im))%Z ->
  (0 <= icx - ir)%Z -> (icx + ir <= Z.of_nat (dim1 im))%Z ->
  List.length color = dim2 im ->
  exists im',
    _npcircle im cx cy radius color transparency = (im', None) /\
    dim0 im' = dim0 im /\ dim1 im' = dim1 im /\ dim2 im' = dim2 im /\
    forall y x c, c < dim2 im ->
      at3 im' y x c =
        if covered icx icy ir y x
        then blend transparency (at3 im y x c) (nth c color 0%Z)
        else at3 im y x c.
Proof.
  intros Hr Hx Hy H0 Hy0 Hy1 Hx0 Hx1 Hc.
  destruct (@npcircle_int_inside im icx icy ir color transparency)
    as (im' & Hrun & D0 & D1 & D2 & Hpx); try assumption.
  exists im'. npcircle_ints Hr Hx Hy. rewrite Hrun. now repeat split.
Qed.

Lemma npcircle_draws_inside_witness :
  exists im',
    _npcircle (black 20 20) (PyFloat (S754_finite false 21 (-1))) (PyInt 10)
      (PyInt 2) red (S754_finite false 1 (-1)) = (im', None) /\
    at3 im' 10 8 0 = 127%Z /\ at3 im' 10 12 0 = 0%Z /\ at3 im' 9 9 0 = 127%Z.
Proof.
  destruct (@npcircle_draws_inside (black 20 20)
              (PyFloat (S754_finite false 21 (-1))) (PyInt 10) (PyInt 2)
              10%Z 10%Z 2%Z red (S754_finite false 1 (-1)))
    as (im' & Hrun & _ & _ & _ & Hpx);
    try reflexivity; try (simpl; lia).
  exists im'. split; [exact Hrun|].
  rewrite !Hpx by (simpl; lia). repeat split; vm_compute; reflexivity.
Defined.

(** X2: with the default [transparency = 0.0], on an 8-bit image and with an
    8-bit colour, a disc inside the image overwrites: the pixels it covers
    hold the colour exactly, the others are untouched. *)
Theorem npcircle_opaque_overwrites (im : image) (cx cy radius : pynum)
  (icx icy ir : Z) (color : list Z) :
  py_int radius = Ok ir -> py_int cx = Ok icx -> py_int cy = Ok icy ->
  (0 <= ir)%Z ->
  (0 <= icy - ir)%Z -> (icy + ir <= Z.of_nat (dim0 im))%Z ->
  (0 <= icx - ir)%Z -> (icx + ir <= Z.of_nat (dim1 im))%Z ->
  List.length color = dim2 im ->
  uint8_image im -> uint8_colour color ->
  exists im',
    _npcircle im cx cy radius color (S754_zero false) = (im', None) /\
    forall y x c, c < dim2 im ->
      at3 im' y x c =
        if covered icx icy ir y x then nth c color 0%Z else at3 im y x c.
Proof.
  intros Hr Hx Hy H0 Hy0 Hy1 Hx0 Hx1 Hc Him Hcol.
  destruct (@npcircle_int_inside im icx icy ir color (S754_zero false))
    as (im' & Hrun & _ & _ & _ & Hpx); try assumption.
  exists im'. npcircle_ints Hr Hx Hy. rewrite Hrun. split; [reflexivity|].
  intros y x c Hlt. rewrite Hpx by assumption.
  destruct (covered icx icy ir y x); [|reflexivity].
  apply (blend_opaque (Him y x c) (nth_uint8 c Hcol)).
Qed.

Lemma black_uint8 (h w : nat) : uint8_image (black h w).
Proof. intros y x c. simpl. lia. Qed.

Lemma red_uint8 : uint8_colour red.
Proof. repeat constructor; lia. Qed.

Lemma npcircle_opaque_overwrites_witness :
  exists im',
    _npcircle (black 20 20) (PyInt 10) (PyInt 10) (PyInt 2) red
      (S754_zero false) = (im', None) /\
    at3 im' 10 8 0 = 255%Z /\ at3 im' 10 8 1 = 0%Z /\ at3 im' 10 12 0 = 0%Z.
Proof.
  destruct (@npcircle_opaque_overwrites (black 20 20)
              (PyInt 10) (PyInt 10) (PyInt 2) 10%Z 10%Z 2%Z red)
    as (im' & Hrun & Hpx);
    try reflexivity; try (simpl; lia);
    try apply black_uint8; try apply red_uint8.
  exists im'. split; [exact Hrun|].
  rewrite !Hpx by (simpl; lia). repeat split.
Defined.

(** X3: with [transparency = 1.0], on an 8-bit image and with an 8-bit
    colour, a disc inside the image changes no value at all. *)
Theorem npcircle_clear_changes_nothing (im : image) (cx cy radius : pynum)
  (icx icy ir : Z) (color : list Z) :
  py_int radius = Ok ir -> py_int cx = Ok icx -> py_int cy = Ok icy ->
  (0 <= ir)%Z ->
  (0 <= icy - ir)%Z -> (icy + ir <= Z.of_nat (dim0 im))%Z ->
  (0 <= icx - ir)%Z -> (icx + ir <= Z.of_nat (dim1 im))%Z ->
  List.length color = dim2 im ->
  uint8_image im -> uint8_colour color ->
  exists im',
    _npcircle im cx cy radius color clear = (im', None) /\
    forall y x c, c < dim2 im -> at3 im' y x c = at3 im y x c.
Proof.
  intros Hr Hx Hy H0 Hy0 Hy1 Hx0 Hx1 Hc Him Hcol.
  destruct (@npcircle_int_inside im icx icy ir color clear)
    as (im' & Hrun & _ & _ & _ & Hpx); try assumption.
  exists im'. npcircle_ints Hr Hx Hy. rewrite Hrun. split; [reflexivity|].
  intros y x c Hlt. rewrite Hpx by assumption.
  destruct (covered icx icy ir y x); [|reflexivity].
  apply (blend_clear (Him y x c) (nth_uint8 c Hcol)).
Qed.

Lemma npcircle_clear_changes_nothing_witness :
  exists im',
    _npcircle (black 20 20) (PyInt 10) (PyInt 10) (PyInt 2) red clear
      = (im', None) /\
    at3 im' 10 8 0 = 0%Z.
Proof.
  destruct (@npcircle_clear_changes_nothing (black 20 20)
              (PyInt 10) (PyInt 10) (PyInt 2) 10%Z 10%Z 2%Z red)
    as (im' & Hrun & Hpx);
    try reflexivity; try (simpl; lia);
    try apply black_uint8; try apply red_uint8.
  exists im'. split; [exact Hrun|].
  rewrite !Hpx by (simpl; lia). reflexivity.
Defined.

(** X4: drawing the same opaque disc a second time changes nothing: after
    the first call the second one succeeds and leaves every value as the
    first call made it. *)
Theorem npcircle_opaque_twice (im : image) (cx cy radius : pynum)
  (icx icy ir : Z) (color : list Z) :
  py_int radius = Ok ir -> py_int cx = Ok icx -> py_int cy = Ok icy ->
  (0 <= ir)%Z ->
  (0 <= icy - ir)%Z -> (icy + ir <= Z.of_nat (dim0 im))%Z ->
  (0 <= icx - ir)%Z -> (icx + ir <= Z.of_nat (dim1 im))%Z ->
  List.length color = dim2 im ->
  uint8_image im -> uint8_colour color ->
  exists im1 im2,
    _npcircle im cx cy radius color (S754_zero false) = (im1, None) /\
    _npcircle im1 cx cy radius color (S754_zero false) = (im2, None) /\
    forall y x c, c < dim2 im -> at3 im2 y x c = at3 im1 y x c.
Proof.
  intros Hr Hx Hy H0 Hy0 Hy1 Hx0 Hx1 Hc Him Hcol.
  destruct (@npcircle_int_inside im icx icy ir color (S754_zero false))
    as (im1 & Hrun1 & D0 & D1 & D2 & Hpx1); try assumption.
  destruct (@npcircle_int_inside im1 icx icy ir color (S754_zero false))
    as (im2 & Hrun2 & _ & _ & _ & Hpx2); try congruence.
  exists im1, im2.
  rewrite (npcircle_of_ints im cx cy radius color (S754_zero false) Hr Hx Hy).
  rewrite (npcircle_of_ints im1 cx cy radius color (S754_zero false) Hr Hx Hy).
  rewrite Hrun1, Hrun2. repeat split.
  intros y x c Hlt. rewrite Hpx2 by congruence.
  destruct (covered icx icy ir y x) eqn:Ecov; [|reflexivity].
  rewrite Hpx1, Ecov by assumption.
  pose proof (blend_opaque (Him y x c) (nth_uint8 c Hcol)) as E.
  unfold opaque in E. rewrite E.
  apply blend_opaque; apply (nth_uint8 c Hcol).
Qed.

Lemma npcircle_opaque_twice_witness :
  exists im1 im2,
    _npcircle (black 20 20) (PyInt 10) (PyInt 10) (PyInt 2) red
      (S754_zero false) = (im1, None) /\
    _npcircle im1 (PyInt 10) (PyInt 10) (PyInt 2) red (S754_zero false)
      = (im2, None) /\
    at3 im2 10 8 0 = at3 im1 10 8 0.
Proof.
  destruct (@npcircle_opaque_twice (black 20 20)
              (PyInt 10) (PyInt 10) (PyInt 2) 10%Z 10%Z 2%Z red)
    as (im1 & im2 & H1 & H2 & Hpx);
    try reflexivity; try (simpl; lia);
    try apply black_uint8; try apply red_uint8.
  exists im1, im2. split; [exact H1|]. split; [exact H2|].
  apply Hpx. simpl. lia.
Defined.

(** X5: negative bounds count from the far end.  A disc whose window lies
    wholly above the image, at most one image height away, is drawn as if
    its centre were one image height lower; likewise a window wholly to the
    left is drawn one image width to the right. *)
Theorem npcircle_wraps_around (im : image) (cx cy radius : pynum)
  (icx icy ir : Z) (color : list Z) (transparency : spec_float) :
  py_int radius = Ok ir -> py_int cx = Ok icx -> py_int cy = Ok icy ->
  (0 <= ir)%Z ->
  ((icy + ir < 0)%Z -> (0 <= icy - ir + Z.of_nat (dim0 im))%Z ->
   _npcircle im cx cy radius color transparency =
   _npcircle im cx (PyInt (icy + Z.of_nat (dim0 im))) radius color
     transparency) /\
  ((icx + ir < 0)%Z -> (0 <= icx - ir + Z.of_nat (dim1 im))%Z ->
   _npcircle im cx cy radius color transparency =
   _npcircle im (PyInt (icx + Z.of_nat (dim1 im))) cy radius color
     transparency).
Proof.
  intros Hr Hx Hy H0. split; intros Hneg Hfar.
  - rewrite (npcircle_of_ints im cx cy radius color transparency Hr Hx Hy).
    rewrite (npcircle_of_ints im cx (PyInt (icy + Z.of_nat (dim0 im))) radius
               color transparency Hr Hx eq_refl).
    unfold npcircle_int.
    destruct (@slice_wraps (dim0 im) (icy - ir) (icy + ir)) as [Es El];
      try lia.
    replace (icy + Z.of_nat (dim0 im) - ir)%Z
      with (icy - ir + Z.of_nat (dim0 im))%Z by lia.
    replace (icy + Z.of_nat (dim0 im) + ir)%Z
      with (icy + ir + Z.of_nat (dim0 im))%Z by lia.
    now rewrite <- Es, <- El.
  - rewrite (npcircle_of_ints im cx cy radius color transparency Hr Hx Hy).
    rewrite (npcircle_of_ints im (PyInt (icx + Z.of_nat (dim1 im))) cy radius
               color transparency Hr eq_refl Hy).
    unfold npcircle_int.
    destruct (@slice_wraps (dim1 im) (icx - ir) (icx + ir)) as [Es El];
      try lia.
    replace (icx + Z.of_nat (dim1 im) - ir)%Z
      with (icx - ir + Z.of_nat (dim1 im))%Z by lia.
    replace (icx + Z.of_nat (dim1 im) + ir)%Z
      with (icx + ir + Z.of_nat (dim1 im))%Z by lia.
    now rewrite <- Es, <- El.
Qed.

Lemma npcircle_wraps_around_witness :
  _npcircle (black 20 20) (PyInt 10) (PyInt (-5)) (PyInt 2) red
    (S754_zero false) =
  _npcircle (black 20 20) (PyInt 10) (PyInt 15) (PyInt 2) red
    (S754_zero false) /\
  _npcircle (black 20 20) (PyInt (-5)) (PyInt 10) (PyInt 2) red
    (S754_zero false) =
  _npcircle (black 20 20) (PyInt 15) (PyInt 10) (PyInt 2) red
    (S754_zero false).
Proof.
  split.
  - apply (proj1 (@npcircle_wraps_around (black 20 20) (PyInt 10)
                    (PyInt (-5)) (PyInt 2) 10%Z (-5)%Z 2%Z red
                    (S754_zero false) eq_refl eq_refl eq_refl
                    ltac:(lia)));
      simpl; lia.
  - apply (proj2 (@npcircle_wraps_around (black 20 20) (PyInt (-5))
                    (PyInt 10) (PyInt 2) (-5)%Z 10%Z 2%Z red
                    (S754_zero false) eq_refl eq_refl eq_refl
                    ltac:(lia)));
      simpl; lia.
Defined.

Lemma slice_len_empty (n : nat) (v : Z) : slice_len n v v = 0.
Proof. unfold slice_len. lia. Qed.

(** X6: a radius whose integer part is 0 draws nothing, not even the centre
    pixel: wherever the centre is, the call succeeds and every value is
    kept (the colour still has to have one entry, or one per channel). *)
Theorem npcircle_radius_zero (im : image) (cx cy radius : pynum)
  (icx icy : Z) (color : list Z) (transparency : spec_float) :
  py_int radius = Ok 0%Z -> py_int cx = Ok icx -> py_int cy = Ok icy ->
  List.length color = dim2 im \/ List.length color = 1 ->
  exists im',
    _npcircle im cx cy radius color transparency = (im', None) /\
    dim0 im' = dim0 im /\ dim1 im' = dim1 im /\ dim2 im' = dim2 im /\
    forall y x c, at3 im' y x c = at3 im y x c.
Proof.
  intros Hr Hx Hy Hc.
  rewrite (npcircle_of_ints im cx cy radius color transparency Hr Hx Hy).
  unfold npcircle_int.
  rewrite !Z.sub_0_r, !Z.add_0_r, !slice_len_empty.
  change (ogrid_len 0) with 0. cbn [Nat.eqb andb].
  replace ((List.length color =? dim2 im) || (List.length color =? 1))
    with true
    by (symmetry; apply orb_true_iff;
        destruct Hc; [left | right]; now apply Nat.eqb_eq).
  eexists. split; [reflexivity|]. simpl. repeat split.
  intros y x c.
  destruct (Nat.leb_spec (slice_start (dim0 im) icy) y);
    destruct (Nat.ltb_spec y (slice_start (dim0 im) icy + 0));
    simpl; try reflexivity; lia.
Qed.

Lemma npcircle_radius_zero_witness :
  exists im',
    _npcircle (black 20 20) (PyInt 10) (PyInt 300)
      (PyFloat (S754_finite false 1 (-1))) red (S754_zero false)
      = (im', None) /\
    at3 im' 10 10 0 = 0%Z.
Proof.
  destruct (@npcircle_radius_zero (black 20 20) (PyInt 10) (PyInt 300)
              (PyFloat (S754_finite false 1 (-1))) 10%Z 300%Z red
              (S754_zero false) eq_refl eq_refl eq_refl (or_introl eq_refl))
    as (im' & Hrun & _ & _ & _ & Hpx).
  exists im'. split; [exact Hrun | apply Hpx].
Defined.

Lemma py_int_raises (x : pynum) (e : exn) :
  py_int x = Raise e -> e = ValueError \/ e = OverflowError.
Proof.
  destruct x as [z | [s | s | | s m e']]; simpl; intros H;
    try discriminate; injection H as <-; auto.
Qed.

Lemma py_int_non_finite (f : spec_float) :
  is_finite f = false -> exists e, py_int (PyFloat f) = Raise e.
Proof.
  destruct f as [s | s | | s m e]; try discriminate; intros _; simpl; eauto.
Qed.

(** X7: when the centre or the radius is a NaN or an infinity, the call
    raises [ValueError] or [OverflowError], the exceptions of [int], before
    it looks at the image: the image is as it was, whatever its shape. *)
Theorem npcircle_rejects_non_finite (im : image) (cx cy radius : pynum)
  (color : list Z) (transparency : spec_float) (f : spec_float) :
  is_finite f = false ->
  cx = PyFloat f \/ cy = PyFloat f \/ radius = PyFloat f ->
  exists e,
    _npcircle im cx cy radius color transparency = (im, Some e) /\
    (e = ValueError \/ e = OverflowError).
Proof.
  intros Hf Hwhich. destruct (py_int_non_finite f Hf) as [ef Hef].
  unfold _npcircle.
  destruct (py_int radius) as [ir | er] eqn:Er.
  - destruct (py_int cx) as [icx | ex] eqn:Ex.
    + destruct (py_int cy) as [icy | ey] eqn:Ey.
      * destruct Hwhich as [-> | [-> | ->]]; congruence.
      * exists ey. split; [reflexivity | now apply (py_int_raises cy)].
    + exists ex. split; [reflexivity | now apply (py_int_raises cx)].
  - exists er. split; [reflexivity | now apply (py_int_raises radius)].
Qed.

Lemma npcircle_rejects_non_finite_witness :
  exists e,
    _npcircle (black 20 20) (PyInt 10) (PyFloat S754_nan) (PyInt 2) red
      (S754_zero false) = (black 20 20, Some e) /\
    (e = ValueError \/ e = OverflowError).
Proof.
  apply (@npcircle_rejects_non_finite (black 20 20) (PyInt 10)
           (PyFloat S754_nan) (PyInt 2) red (S754_zero false) S754_nan
           eq_refl).
  right. left. reflexivity.
Defined.

(** X8: the colour is broadcast over the channels.  For a window inside the
    image, a colour of a single entry is blended into every channel of the
    covered pixels; a colour whose length is neither 1 nor the number of
    channels raises [ValueError] and the image stays as it was. *)
Theorem npcircle_colour_length (im : image) (cx cy radius : pynum)
  (icx icy ir : Z) (color : list Z) (transparency : spec_float) :
  py_int radius = Ok ir -> py_int cx = Ok icx -> py_int cy = Ok icy ->
  (0 <= ir)%Z ->
  (0 <= icy - ir)%Z -> (icy + ir <= Z.of_nat (dim0 im))%Z ->
  (0 <= icx - ir)%Z -> (icx + ir <= Z.of_nat (dim1 im))%Z ->
  (forall v, color = [v] ->
   exists im',
     _npcircle im cx cy radius color transparency = (im', None) /\
     forall y x c,
       at3 im' y x c =
         if covered icx icy ir y x
         then blend transparency (at3 im y x c) v
         else at3 im y x c) /\
  (List.length color <> dim2 im -> List.length color <> 1 ->
   _npcircle im cx cy radius color transparency = (im, Some ValueError)).
Proof.
  intros Hr Hx Hy H0 Hy0 Hy1 Hx0 Hx1. split.
  - intros v ->.
    destruct (@npcircle_int_window im icx icy ir [v] transparency)
      as (im' & Hrun & _ & _ & _ & Hpx); try assumption; [now right|].
    exists im'.
    rewrite (npcircle_of_ints im cx cy radius [v] transparency Hr Hx Hy).
    rewrite Hrun. split; [reflexivity|]. intros y x c. now rewrite Hpx.
  - intros N1 N2.
    rewrite (npcircle_of_ints im cx cy radius color transparency Hr Hx Hy).
    unfold npcircle_int.
    destruct (@slice_inside (dim0 im) (icy - ir) (icy + ir)) as [_ Eh];
      try lia.
    destruct (@slice_inside (dim1 im) (icx - ir) (icx + ir)) as [_ Ew];
      try lia.
    rewrite Eh, Ew.
    rewrite <- (@ogrid_len_width icy ir), <- (@ogrid_len_width icx ir).
    rewrite !Nat.eqb_refl, orb_true_r.
    apply Nat.eqb_neq in N1, N2. now rewrite N1, N2.
Qed.

Lemma npcircle_colour_length_witness :
  (exists im',
      _npcircle (black 20 20) (PyInt 10) (PyInt 10) (PyInt 2) [200%Z]
        (S754_zero false) = (im', None) /\
      at3 im' 10 8 2 = 200%Z) /\
  _npcircle (black 20 20) (PyInt 10) (PyInt 10) (PyInt 2) [1; 2]%Z
    (S754_zero false) = (black 20 20, Some ValueError).
Proof.
  split.
  - destruct (proj1 (@npcircle_colour_length (black 20 20) (PyInt 10)
                       (PyInt 10) (PyInt 2) 10%Z 10%Z 2%Z [200%Z]
                       (S754_zero false) eq_refl eq_refl eq_refl
                       ltac:(lia) ltac:(lia) ltac:(simpl; lia) ltac:(lia)
                       ltac:(simpl; lia)) 200%Z eq_refl)
      as (im' & Hrun & Hpx).
    exists im'. split; [exact Hrun|]. rewrite Hpx. vm_compute. reflexivity.
  - apply (proj2 (@npcircle_colour_length (black 20 20) (PyInt 10)
                    (PyInt 10) (PyInt 2) 10%Z 10%Z 2%Z [1; 2]%Z
                    (S754_zero false) eq_refl eq_refl eq_refl
                    ltac:(lia) ltac:(lia) ltac:(simpl; lia) ltac:(lia)
                    ltac:(simpl; lia)));
      simpl; lia.
Defined.

Lemma covered_low_end (cx cy r : Z) :
  (0 < r)%Z -> (0 <= cx - r)%Z -> (0 <= cy)%Z ->
  covered cx cy r (Z.to_nat cy) (Z.to_nat (cx - r)) = true.
Proof.
  intros Hr Hx Hy. unfold covered. rewrite !Z2Nat.id by lia.
  replace ((cx - r - cx) ^ 2 + (cy - cy) ^ 2)%Z with (r ^ 2)%Z by ring.
  repeat (apply andb_true_intro; split);
    try (apply Z.leb_le; lia); apply Z.ltb_lt; lia.
Qed.

Lemma covered_high_end (cx cy r : Z) (y : nat) :
  (0 <= cx + r)%Z -> covered cx cy r y (Z.to_nat (cx + r)) = false.
Proof.
  intros Hx. unfold covered. rewrite !Z2Nat.id by lia.
  rewrite (Z.ltb_irrefl (cx + r)). now rewrite !andb_false_r.
Qed.

(** X9: the disc is lopsided for every positive radius.  On the row of the
    centre, the pixel [r] columns to the left is blended and the pixel [r]
    columns to the right keeps its value, though both are at distance
    exactly [r]. *)
Theorem npcircle_lopsided (im : image) (cx cy radius : pynum)
  (icx icy ir : Z) (color : list Z) (transparency : spec_float) :
  py_int radius = Ok ir -> py_int cx = Ok icx -> py_int cy = Ok icy ->
  (0 < ir)%Z ->
  (0 <= icy - ir)%Z -> (icy + ir <= Z.of_nat (dim0 im))%Z ->
  (0 <= icx - ir)%Z -> (icx + ir <= Z.of_nat (dim1 im))%Z ->
  List.length color = dim2 im ->
  exists im',
    _npcircle im cx cy radius color transparency = (im', None) /\
    in_disc icx icy ir (Z.to_nat icy) (Z.to_nat (icx - ir)) = true /\
    in_disc icx icy ir (Z.to_nat icy) (Z.to_nat (icx + ir)) = true /\
    forall c, c < dim2 im ->
      at3 im' (Z.to_nat icy) (Z.to_nat (icx - ir)) c =
        blend transparency (at3 im (Z.to_nat icy) (Z.to_nat (icx - ir)) c)
          (nth c color 0%Z) /\
      at3 im' (Z.to_nat icy) (Z.to_nat (icx + ir)) c =
        at3 im (Z.to_nat icy) (Z.to_nat (icx + ir)) c.
Proof.
  intros Hr Hx Hy H0 Hy0 Hy1 Hx0 Hx1 Hc.
  destruct (@npcircle_int_inside im icx icy ir color transparency)
    as (im' & Hrun & _ & _ & _ & Hpx); try assumption; try lia.
  exists im'.
  rewrite (npcircle_of_ints im cx cy radius color transparency Hr Hx Hy).
  rewrite Hrun. split; [reflexivity|].
  assert (Hin : forall d, (d = - ir \/ d = ir)%Z ->
            in_disc icx icy ir (Z.to_nat icy) (Z.to_nat (icx + d)) = true).
  { intros d Hd. unfold in_disc. rewrite !Z2Nat.id by lia.
    apply Z.leb_le.
    replace ((icx + d - icx) ^ 2 + (icy - icy) ^ 2)%Z with (d ^ 2)%Z by ring.
    destruct Hd as [-> | ->]; [|lia].
    replace ((- ir) ^ 2)%Z with (ir ^ 2)%Z by ring. lia. }
  split; [apply (Hin (- ir)%Z); now left|].
  split; [apply (Hin ir); now right|].
  intros c Hlt. rewrite !Hpx by assumption.
  rewrite covered_low_end, covered_high_end by lia. now split.
Qed.

Lemma npcircle_lopsided_witness :
  exists im',
    _npcircle (black 20 20) (PyInt 10) (PyInt 10) (PyInt 2) red
      (S754_zero false) = (im', None) /\
    at3 im' 10 8 0 = 255%Z /\ at3 im' 10 12 0 = 0%Z.
Proof.
  destruct (@npcircle_lopsided (black 20 20) (PyInt 10) (PyInt 10) (PyInt 2)
              10%Z 10%Z 2%Z red (S754_zero false))
    as (im' & Hrun & _ & _ & Hpx);
    try reflexivity; try (simpl; lia).
  exists im'. split; [exact Hrun|].
  destruct (Hpx 0) as [Hl Hh]; [simpl; lia|].
  split; [etransitivity; [exact Hl | vm_compute; reflexivity] | exact Hh].
Defined.

(** * Further properties of the remapper and of the entry point *)

(** X11: the remapper works pixel by pixel and reads channels 0 to 13 only.
    Two stacks that agree on those channels at a pixel give the same sixteen
    values there, whatever they hold elsewhere and however many further
    channels they have. *)
Theorem remap_is_pixelwise (u v : heatmaps) (i j : nat) :
  14 <= dim2 u -> 14 <= dim2 v ->
  i < dim0 u -> j < dim1 u -> i < dim0 v -> j < dim1 v ->
  (forall k, k < 14 -> at3 u i j k = at3 v i j k) ->
  exists a b,
    remap u = Ok a /\ remap v = Ok b /\
    forall k, k < 16 -> at3 a i j k = at3 b i j k.
Proof.
  intros Hu Hv Hiu Hju Hiv Hjv Hsame.
  destruct (remap_spec u Hu) as (a & Ha & _ & _ & _ & Pa).
  destruct (remap_spec v Hv) as (b & Hb & _ & _ & _ & Pb).
  exists a, b. split; [exact Ha|]. split; [exact Hb|].
  destruct (Pa i j Hiu Hju) as (Alo & A6 & A7 & Ahi).
  destruct (Pb i j Hiv Hjv) as (Blo & B6 & B7 & Bhi).
  assert (E6 : at3 a i j 6 = at3 b i j 6)
    by (rewrite A6, B6, !Hsame by lia; reflexivity).
  intros k Hk.
  destruct (Nat.lt_ge_cases k 6) as [Hlo | Hge].
  - rewrite Alo, Blo by assumption. apply Hsame. lia.
  - destruct (Nat.eq_dec k 6) as [-> | N6]; [exact E6|].
    destruct (Nat.eq_dec k 7) as [-> | N7].
    + rewrite A7, B7, E6, !Hsame by lia. reflexivity.
    + rewrite Ahi, Bhi by lia. apply Hsame. lia.
Qed.

Lemma remap_is_pixelwise_witness :
  exists a b,
    remap (ramp_stack 14) = Ok a /\ remap (ramp_stack 20) = Ok b /\
    at3 a 0 0 7 = at3 b 0 0 7.
Proof.
  destruct (@remap_is_pixelwise (ramp_stack 14) (ramp_stack 20) 0 0)
    as (a & b & Ha & Hb & Hk);
    try (simpl; lia); [reflexivity|].
  exists a, b. split; [exact Ha|]. split; [exact Hb|]. apply Hk. lia.
Defined.

(** X12: the processing image.  A grayscale file becomes three identical
    channels; a file with channels has them in reverse order, and reversing
    them once more gives back the file as it was decoded. *)
Theorem load_image_channels (w : World) (image_name : string) :
  (forall a, imread w image_name = Gray a ->
     let im := load_image w image_name in
     dim0 im = rows a /\ dim1 im = cols a /\ dim2 im = 3 /\
     forall y x c, at3 im y x c = at2 a y x) /\
  (forall a, imread w image_name = Colour a ->
     let im := load_image w image_name in
     dim0 im = dim0 a /\ dim1 im = dim1 a /\ dim2 im = dim2 a /\
     forall y x c, c < dim2 a ->
       at3 im y x c = at3 a y x (dim2 a - 1 - c) /\
       at3 (flip2 im) y x c = at3 a y x c).
Proof.
  split; intros a Ha; unfold load_image; rewrite Ha; simpl.
  - now repeat split.
  - repeat split. f_equal. lia.
Qed.

Lemma load_image_channels_witness :
  at3 (load_image grey_world "g.png") 1 0 2 = 2%Z /\
  at3 (load_image small_world "a.png") 0 0 0 = 3%Z /\
  at3 (flip2 (load_image small_world "a.png")) 0 0 0 = 1%Z.
Proof.
  destruct (proj1 (load_image_channels grey_world "g.png") grey_ramp eq_refl)
    as (_ & _ & _ & Hg).
  destruct (proj2 (load_image_channels small_world "a.png") small_picture
              eq_refl) as (_ & _ & _ & Hc).
  destruct (Hc 0 0 0) as [H1 H2]; [simpl; lia|].
  split; [rewrite Hg; reflexivity|]. split; [exact H1 | exact H2].
Defined.

Lemma parse_scales_bad (w : World) (vals : list string) :
  (exists v, In v vals /\ float_of_string w v = None) ->
  parse_scales w vals = Raise ValueError.
Proof.
  induction vals as [|v vals IH]; intros (x & Hin & Hx); [destruct Hin|].
  simpl. destruct (float_of_string w v) as [f|] eqn:Ev; [|reflexivity].
  destruct Hin as [-> | Hin]; [congruence|].
  rewrite IH by eauto. reflexivity.
Qed.

Lemma parse_scales_good (w : World) (vals : list string)
  (fs : list spec_float) :
  parse_scales w vals = Ok fs ->
  List.length fs = List.length vals /\
  forall v, In v vals -> float_of_string w v <> None.
Proof.
  revert fs. induction vals as [|v vals IH]; intros fs H; simpl in H.
  - injection H as <-. split; [reflexivity | intros v []].
  - destruct (float_of_string w v) as [f|] eqn:Ev; [|discriminate].
    destruct (parse_scales w vals) as [fs' | e]; [|discriminate].
    injection H as <-. destruct (IH fs' eq_refl) as [Hl Hall].
    split; [simpl; now rewrite Hl|].
    intros x [<- | Hin]; [congruence | now apply Hall].
Qed.

(** X13: the scales are parsed before anything else happens.  If one of the
    comma-separated pieces is not a float, the run raises [ValueError]
    without a single effect: no backend is selected, no directory made, no
    file read or written.  If they all parse there is one scale per piece. *)
Theorem scales_are_parsed_first (w : World) (image_name : string)
  (out_name : option string) (scales : string) (visualize : bool)
  (suffix : string) (use_cpu : bool) (gpu : Z) :
  ((exists v, In v (pystr.split ","%char scales) /\
              float_of_string w v = None) ->
   predict_pose_from w image_name out_name scales visualize suffix use_cpu
     gpu = ([], Raise ValueError)) /\
  (forall fs, parse_scales w (pystr.split ","%char scales) = Ok fs ->
   List.length fs = List.length (pystr.split ","%char scales)).
Proof.
  split.
  - intros Hbad. unfold predict_pose_from.
    now rewrite (parse_scales_bad w _ Hbad).
  - intros fs H. now apply (parse_scales_good w _ H).
Qed.

Lemma scales_are_parsed_first_witness :
  predict_pose_from small_world "a.png"%string None "1.,x"%string true
    ".png"%string true 0%Z = ([], Raise ValueError).
Proof.
  apply (proj1 (@scales_are_parsed_first small_world "a.png"%string None
                  "1.,x"%string true ".png"%string true 0%Z)).
  exists "x"%string. split; [right; left; reflexivity | reflexivity].
Defined.

(** A run whose scales parse is its prologue followed by the loop over the
    inputs; it ends as the loop ends. *)
Lemma run_unfold (w : World) (image_name : string) (out_name : option string)
  (scales : string) (vis : bool) (suffix : string) (use_cpu : bool) (gpu : Z)
  (fs : list spec_float) :
  parse_scales w (pystr.split ","%char scales) = Ok fs ->
  let loop := for_each_M (input_images w image_name suffix)
                (process_image w out_name (isdir w image_name) fs vis)
                out_name in
  predict_pose_from w image_name out_name scales vis suffix use_cpu gpu =
  (prologue w image_name out_name use_cpu gpu ++ trace loop,
   match outcome loop with
   | Ok _ => Ok tt
   | Raise e => Raise e
   end).
Proof.
  intros Hp loop. subst loop. unfold predict_pose_from, prologue, input_images.
  rewrite Hp.
  destruct (isdir w image_name) eqn:Ed;
    cbv beta iota zeta delta [lift bind];
    match goal with
    | |- context [for_each_M ?l ?b ?o] =>
        destruct (for_each_M l b o) as [tr r]
    end;
    destruct use_cpu, out_name as [d|]; simpl;
    try destruct (path_exists w d); simpl;
    destruct r as [r | e]; simpl; rewrite ?app_nil_r; reflexivity.
Qed.

Local Open Scope string_scope.

(** X16: a folder run without an output name.  No directory is made; each
    image reached gets its archive beside it, at its own path followed by
    [_pose.npz], and a bundle; archives and bundles come in the order of
    the listing, one of each per image reached, and every image is reached
    when the run ends without an exception. *)
Theorem folder_run_without_output_name (w : World) (image_name : string)
  (scales : string) (visualize : bool) (suffix : string) (use_cpu : bool)
  (gpu : Z) (fs : list spec_float) :
  parse_scales w (pystr.split ","%char scales) = Ok fs ->
  isdir w image_name = true ->
  let run := predict_pose_from w image_name None scales visualize suffix
               use_cpu gpu in
  let images := glob w (posixpath.join image_name ("*" ++ suffix)) in
  paths_of is_mkdir (trace run) = [] /\
  exists n,
    n <= List.length images /\ (images <> [] -> 0 < n) /\
    paths_of is_savez (trace run) =
      map (fun i => i ++ "_pose.npz") (firstn n images) /\
    paths_of is_h5 (trace run) = map h5_name (firstn n images) /\
    (outcome run = Ok tt -> n = List.length images).
Proof.
  intros Hp Hd run images.
  destruct (@run_paths w image_name None scales visualize suffix use_cpu
              gpu fs Hp) as (n & Hn & Hpos & Hs & Hh & Hm & _ & Hok).
  fold run in Hs, Hh, Hm, Hok. rewrite Hd in *. fold images in Hn, Hpos, Hs, Hh.
  split; [exact Hm|]. exists n. repeat split; auto. now apply Hok.
Qed.

Lemma folder_run_without_output_name_witness :
  paths_of is_savez
    (trace (predict_pose_from small_world "imgs" None "1." false ".png"
              true 0))
    = ["imgs/a.png_pose.npz"; "imgs/b.png_pose.npz"] /\
  paths_of is_mkdir
    (trace (predict_pose_from small_world "imgs" None "1." false ".png"
              true 0))
    = [].
Proof.
  destruct (@folder_run_without_output_name small_world "imgs" "1." false
              ".png" true 0%Z [F64.one] eq_refl eq_refl)
    as (Hm & n & _ & _ & Hs & _ & Hall).
  split; [|exact Hm]. rewrite Hs, (Hall eq_refl). reflexivity.
Defined.

Lemma process_image_no_backend (w : World) (prov : option string) (pf : bool)
  (scales : list spec_float) (vis : bool) (img : string)
  (out : option string) :
  existsb is_backend (trace (process_image w prov pf scales vis img out))
  = false.
Proof.
  unfold process_image.
  destruct (estimate_pose w _ _ _ _) as [pose um].
  destruct (next_out_name prov pf out img) as [o|]; [|reflexivity].
  pose proof (draw_loop_silent pose (range 0 14)
                (visim_of (swapaxes02 (load_image w img)))) as Hs.
  set (loop := for_each_M (range 0 14) (draw_joint pose) _) in *.
  destruct loop as [tr [v | e]]; simpl in Hs; subst tr;
    destruct (h5_create w (h5_name img)) as [e0|];
    destruct (remap um) as [um2 | e']; destruct vis; reflexivity.
Qed.

Lemma loop_no_backend (w : World) (prov : option string) (pf : bool)
  (scales : list spec_float) (vis : bool) (images : list string) :
  forall out,
  existsb is_backend
    (trace (for_each_M images (process_image w prov pf scales vis) out))
  = false.
Proof.
  induction images as [|img images IH]; intros out; [reflexivity|].
  simpl. rewrite trace_bind.
  destruct (outcome _); [|apply process_image_no_backend].
  now rewrite existsb_app, process_image_no_backend, IH.
Qed.

(** X14: the backend is selected once, as the first effect of the run, and
    the output directory is made, if at all, right after it and before any
    image is read: only in a folder run, only when an output name was given
    and does not exist.  Nothing later in the run selects a backend or
    makes a directory. *)
Theorem backend_and_directory_first (w : World) (image_name : string)
  (out_name : option string) (scales : string) (visualize : bool)
  (suffix : string) (use_cpu : bool) (gpu : Z) (fs : list spec_float) :
  parse_scales w (pystr.split ","%char scales) = Ok fs ->
  exists body,
    trace (predict_pose_from w image_name out_name scales visualize suffix
             use_cpu gpu) =
    ((if use_cpu then [SetModeCpu] else [SetModeGpu; SetDevice gpu])
     ++ match out_name with
        | Some d =>
            if isdir w image_name && negb (path_exists w d)
            then [Mkdir d] else []
        | None => []
        end
     ++ body)%list /\
    existsb is_backend body = false /\
    paths_of is_mkdir body = [].
Proof.
  intros Hp. rewrite (run_unfold w image_name out_name scales visualize
                        suffix use_cpu gpu Hp).
  eexists. unfold prologue, trace. cbn [fst]. rewrite <- app_assoc.
  split; [reflexivity|]. split; [apply loop_no_backend|].
  destruct (@loop_paths w out_name (isdir w image_name) fs visualize
              (input_images w image_name suffix) out_name)
    as (n & _ & _ & _ & _ & Hm & _); [now auto | exact Hm].
Qed.

Lemma backend_and_directory_first_witness :
  exists body,
    trace (predict_pose_from small_world "imgs" (Some "out") "1." false
             ".png" false 3) =
    ([SetModeGpu; SetDevice 3%Z] ++ [Mkdir "out"] ++ body)%list /\
    existsb is_backend body = false /\
    paths_of is_mkdir body = [].
Proof.
  exact (@backend_and_directory_first small_world "imgs" (Some "out") "1."
           false ".png" false 3%Z [F64.one] eq_refl).
Defined.



(** X20: a turn that stops at the bundle.  In either case the keypoint
    archive has been saved and the creation of the bundle file attempted,
    and nothing else has happened: the bundle gets no entry and is not
    closed, and no preview is drawn.  When [h5py.File] raises, as it does
    with [FileNotFoundError] for a path whose folder does not exist, the
    turn raises that exception.  When the file is created and the estimator
    has returned a stack with fewer than 14 channels, the remapping raises
    [IndexError]. *)
Theorem short_stack_turn (w : World) (prov : option string) (pf : bool)
  (scales : list spec_float) (vis : bool) (img : string)
  (out : option string) (o : string) :
  next_out_name prov pf out img = Some o ->
  let found := estimate_pose w (load_image w img) model_def model_bin scales in
  (forall e, h5_create w (h5_name img) = Some e ->
   process_image w prov pf scales vis img out =
   ([Savez o (fst found); H5Create (h5_name img)], Raise e)) /\
  (h5_create w (h5_name img) = None ->
   dim2 (snd found) < 14 ->
   process_image w prov pf scales vis img out =
   ([Savez o (fst found); H5Create (h5_name img)], Raise IndexError)).
Proof.
  intros Ho found. subst found. unfold process_image. rewrite Ho.
  destruct (estimate_pose w _ _ _ _) as [pose um]. split.
  - intros e He. rewrite He. reflexivity.
  - intros Hc Hshort. rewrite Hc. simpl in Hshort |- *.
    now rewrite (remap_short um Hshort).
Qed.

Lemma short_stack_turn_witness :
  process_image strict_world None false [F64.one] true "data/a.png" None =
  ([Savez "data/a.png_pose.npz" (Array2 2 14 (fun _ _ => S754_zero false));
    H5Create "data/data/a.h5"],
   Raise FileNotFoundError) /\
  process_image short_world None false [F64.one] true "a.png" None =
  ([Savez "a.png_pose.npz" (Array2 2 14 (fun _ _ => S754_zero false));
    H5Create "a.h5"],
   Raise IndexError).
Proof.
  split.
  - apply (proj1 (@short_stack_turn strict_world None false [F64.one] true
                    "data/a.png" None "data/a.png_pose.npz" eq_refl)).
    reflexivity.
  - apply (proj2 (@short_stack_turn short_world None false [F64.one] true
                    "a.png" None "a.png_pose.npz" eq_refl)).
    + reflexivity.
    + simpl. lia.
Defined.

(** X21: a turn without preview, when [h5py.File] creates the bundle file
    and the stack has at least 14 channels.  Its effects, in order: the
    archive is saved, the bundle created, the remapped stack stored with its
    first and last axes swapped (16 by width by height), the processing
    image stored swapped likewise, the bundle closed.  It raises nothing and
    leaves the archive name in [out_name]. *)
Theorem plain_turn (w : World) (prov : option string) (pf : bool)
  (scales : list spec_float) (img : string) (out : option string)
  (o : string) :
  next_out_name prov pf out img = Some o ->
  h5_create w (h5_name img) = None ->
  let image := load_image w img in
  let found := estimate_pose w image model_def model_bin scales in
  14 <= dim2 (snd found) ->
  exists um2,
    remap (snd found) = Ok um2 /\
    process_image w prov pf scales false img out =
    ([Savez o (fst found);
      H5Create (h5_name img);
      H5PutHeatmap (h5_name img) (swapaxes02 um2);
      H5PutImage (h5_name img) (swapaxes02 image);
      H5Close (h5_name img)],
     Ok (Some o)) /\
    dim0 (swapaxes02 um2) = 16 /\
    dim1 (swapaxes02 um2) = dim1 (snd found) /\
    dim2 (swapaxes02 um2) = dim0 (snd found) /\
    (forall k x y, at3 (swapaxes02 um2) k x y = at3 um2 y x k) /\
    dim0 (swapaxes02 image) = dim2 image /\
    forall c x y, at3 (swapaxes02 image) c x y = at3 image y x c.
Proof.
  intros Ho Hc image found Hlong. subst found image. unfold process_image.
  rewrite Ho, Hc.
  destruct (estimate_pose w _ _ _ _) as [pose um]. simpl in Hlong |- *.
  destruct (remap_spec um Hlong) as (um2 & Hr & D0 & D1 & D2 & _).
  exists um2. rewrite Hr. simpl. now repeat split.
Qed.

Lemma plain_turn_witness :
  exists um2,
    remap (snd (estimate_pose small_world (load_image small_world "a.png")
                  model_def model_bin [F64.one])) = Ok um2 /\
    trace (process_image small_world None false [F64.one] false "a.png" None)
    = [Savez "a.png_pose.npz" (Array2 2 14 (fun _ _ => S754_zero false));
       H5Create "a.h5";
       H5PutHeatmap "a.h5" (swapaxes02 um2);
       H5PutImage "a.h5" (swapaxes02 (load_image small_world "a.png"));
       H5Close "a.h5"] /\
    (dim0 (swapaxes02 um2), dim1 (swapaxes02 um2), dim2 (swapaxes02 um2))
    = (16, 1, 2).
Proof.
  destruct (@plain_turn small_world None false [F64.one] "a.png" None
              "a.png_pose.npz" eq_refl eq_refl)
    as (um2 & Hr & Hrun & D0 & D1 & D2 & _); [simpl; lia|].
  exists um2. split; [exact Hr|]. split; [now rewrite Hrun|].
  now rewrite D0, D1, D2.
Defined.








(** * The bundle path, by the form of the input path *)

Lemma prefix_slash_cons (a : ascii) (s : string) :
  prefix "/" (String a s) = true -> a = "/"%char.
Proof.
  cbn [prefix]. destruct (ascii_dec "/" a) as [<- | _]; intros H;
    [reflexivity | discriminate].
Qed.

Lemma prefix_slash_cons_false (a : ascii) (s : string) :
  prefix "/" (String a s) = false -> a <> "/"%char.
Proof.
  cbn [prefix]. intros H ->. destruct (ascii_dec "/" "/") as [_ | N];
    [destruct s; discriminate | now apply N].
Qed.

Lemma prefix_slash_other (a : ascii) (s : string) :
  a <> "/"%char -> prefix "/" (String a s) = false.
Proof.
  intros N. cbn [prefix].
  destruct (ascii_dec "/" a) as [E | _]; [now symmetry in E | reflexivity].
Qed.

Lemma prefix_slash_same (s : string) : prefix "/" (String "/" s) = true.
Proof.
  cbn [prefix]. destruct (ascii_dec "/" "/") as [_ | N];
    [now destruct s | now contradiction N].
Qed.

Lemma no_slash_after_cut (p t : string) (n : nat) :
  prefix "/" p = false -> prefix "/" t = false ->
  prefix "/" (substring 0 n p ++ t) = false.
Proof.
  intros Hp Ht. destruct p as [|a s]; destruct n;
    cbn [substring append]; try exact Ht.
  apply prefix_slash_other. now apply prefix_slash_cons_false in Hp.
Qed.

Lemma no_slash_after_append (p t : string) :
  prefix "/" p = false -> prefix "/" t = false -> prefix "/" (p ++ t) = false.
Proof.
  intros Hp Ht. destruct p as [|a s]; cbn [append]; [exact Ht|].
  apply prefix_slash_other. now apply prefix_slash_cons_false in Hp.
Qed.

Lemma rstrip_empty (c : ascii) (s : string) :
  pystr.rstrip c s = "" -> pystr.all_char c s = true.
Proof.
  destruct s as [|a s]; simpl; [reflexivity|].
  destruct ((a =? c)%char && pystr.all_char c s); [reflexivity | discriminate].
Qed.

Lemma endswith_rstrip (c : ascii) (s : string) :
  pystr.endswith (pystr.rstrip c s) (String c "") = false.
Proof.
  induction s as [|a s IH]; [reflexivity|].
  simpl. destruct ((a =? c)%char && pystr.all_char c s) eqn:E;
    [reflexivity|].
  simpl. rewrite IH.
  destruct (a =? c)%char eqn:Ea; [|reflexivity].
  destruct (pystr.rstrip c s) as [|b t] eqn:Er; [|reflexivity].
  apply rstrip_empty in Er. simpl in E. congruence.
Qed.

Lemma all_slash_cut (p : string) (n : nat) :
  pystr.all_char "/" (substring 0 n p) = true ->
  substring 0 n p <> "" ->
  prefix "/" p = true.
Proof.
  destruct p as [|a s]; destruct n; cbn [substring pystr.all_char];
    try congruence.
  intros H _. apply andb_true_iff in H. destruct H as [Ha _].
  apply Ascii.eqb_eq in Ha. subst a. apply prefix_slash_same.
Qed.

Lemma rfind_absolute (s : string) :
  (0 <= pystr.rfind posixpath.sep (String "/" s))%Z.
Proof.
  unfold pystr.rfind. simpl.
  destruct (0 <=? pystr.rfind_from posixpath.sep s 1)%Z eqn:E; [|lia].
  now apply Z.leb_le.
Qed.

(** The root that [splitext] returns starts as the path does. *)
Lemma root_absolute (s : string) :
  prefix "/" (fst (posixpath.splitext (String "/" s)) ++ ".h5") = true.
Proof.
  unfold posixpath.splitext.
  pose proof (rfind_absolute s) as Hsep.
  set (p := String "/" s) in *.
  destruct ((pystr.rfind posixpath.sep p <? pystr.rfind posixpath.extsep p)%Z
            && posixpath.has_non_dot p _ _) eqn:E; cbn [fst].
  - apply andb_true_iff in E. destruct E as [E _]. apply Z.ltb_lt in E.
    unfold pystr.upto.
    destruct (Z.to_nat (pystr.rfind posixpath.extsep p)) as [|k] eqn:Ek;
      [lia|].
    subst p. cbn [substring append]. apply prefix_slash_same.
  - subst p. cbn [append]. apply prefix_slash_same.
Qed.

Lemma root_relative (p : string) :
  prefix "/" p = false ->
  prefix "/" (fst (posixpath.splitext p) ++ ".h5") = false.
Proof.
  intros Hp. unfold posixpath.splitext.
  destruct (_ && _); cbn [fst].
  - now apply no_slash_after_cut.
  - now apply no_slash_after_append.
Qed.

(** X22: for an absolute input path, and for one without a directory part,
    the bundle path is the input path with its extension replaced by
    [.h5]. *)
Theorem bundle_path_replaces_extension (image_name : string) :
  pystr.startswith image_name "/" = true \/
  posixpath.dirname image_name = "" ->
  h5_name image_name = fst (posixpath.splitext image_name) ++ ".h5".
Proof.
  intros [Habs | Hbare]; unfold h5_name, posixpath.join.
  - unfold pystr.startswith in *.
    destruct image_name as [|a s]; [discriminate|].
    apply prefix_slash_cons in Habs. subst a.
    unfold pystr.startswith. now rewrite root_absolute.
  - rewrite Hbare. now destruct (pystr.startswith _ "/").
Qed.

Lemma bundle_path_replaces_extension_witness :
  h5_name "/data/run.1/a.png" = "/data/run.1/a.h5" /\
  h5_name "a.tar.gz" = "a.tar.h5".
Proof.
  split.
  - rewrite (bundle_path_replaces_extension "/data/run.1/a.png");
      [reflexivity | left; reflexivity].
  - rewrite (bundle_path_replaces_extension "a.tar.gz");
      [reflexivity | right; reflexivity].
Defined.

(** X23: for a relative input path with a directory part, the bundle path
    is that directory, a slash, and then the whole input path with its
    extension replaced by [.h5]: the directory comes twice. *)
Theorem bundle_path_repeats_directory (image_name : string) :
  pystr.startswith image_name "/" = false ->
  posixpath.dirname image_name <> "" ->
  h5_name image_name =
  posixpath.dirname image_name ++ "/"
  ++ fst (posixpath.splitext image_name) ++ ".h5".
Proof.
  intros Hrel Hdir. unfold h5_name, posixpath.join.
  unfold pystr.startswith in *. rewrite (root_relative _ Hrel).
  apply String.eqb_neq in Hdir. rewrite Hdir. cbn [orb].
  replace (pystr.endswith (posixpath.dirname image_name) "/") with false;
    [reflexivity|].
  symmetry. apply String.eqb_neq in Hdir. revert Hdir.
  unfold posixpath.dirname, pystr.upto.
  set (n := Z.to_nat (pystr.rfind posixpath.sep image_name + 1)).
  destruct (negb (substring 0 n image_name =? "")
            && negb (pystr.all_char posixpath.sep (substring 0 n image_name)))
    eqn:E; intros Hdir.
  - apply endswith_rstrip.
  - exfalso. apply andb_false_iff in E. destruct E as [E | E];
      apply negb_false_iff in E.
    + apply String.eqb_eq in E. contradiction.
    + apply all_slash_cut in E; [|assumption].
      unfold posixpath.sep in E. congruence.
Qed.

Lemma bundle_path_repeats_directory_witness :
  h5_name "runs/day1/a.png" = "runs/day1/runs/day1/a.h5".
Proof.
  rewrite (bundle_path_repeats_directory "runs/day1/a.png");
    [reflexivity | reflexivity | discriminate].
Defined.





Local Close Scope string_scope.

(** X10: which discs raise [IndexError].  For a positive radius with
    [2 * r] at most the height and the width of the image, the call raises
    it exactly when the window of rows or the window of columns cannot be
    cut out in full: when it neither lies inside the image nor lies wholly
    below zero within one image size. *)
Theorem npcircle_index_error (im : image) (cx cy radius : pynum)
  (icx icy ir : Z) (color : list Z) (transparency : spec_float) :
  py_int radius = Ok ir -> py_int cx = Ok icx -> py_int cy = Ok icy ->
  (0 < ir)%Z ->
  (2 * ir <= Z.of_nat (dim0 im))%Z -> (2 * ir <= Z.of_nat (dim1 im))%Z ->
  snd (_npcircle im cx cy radius color transparency) = Some IndexError <->
  ~ (window_fits (dim0 im) (icy - ir) (icy + ir) /\
     window_fits (dim1 im) (icx - ir) (icx + ir)).
Proof.
  intros Hr Hx Hy H0 Bh Bw.
  rewrite (npcircle_of_ints im cx cy radius color transparency Hr Hx Hy).
  unfold npcircle_int.
  destruct (Nat.eqb_spec (ogrid_len ir) 0) as [E0 | _];
    [unfold ogrid_len in E0; lia|]. cbn [orb].
  rewrite (@ogrid_len_width icy ir) at 1. rewrite (@ogrid_len_width icx ir).
  rewrite <- (@slice_len_fits (dim0 im) (icy - ir) (icy + ir)) by lia.
  rewrite <- (@slice_len_fits (dim1 im) (icx - ir) (icx + ir)) by lia.
  destruct (Nat.eqb_spec (Z.to_nat (icy + ir - (icy - ir)))
              (slice_len (dim0 im) (icy - ir) (icy + ir))) as [Ey | Ny];
    destruct (Nat.eqb_spec (Z.to_nat (icx + ir - (icx - ir)))
                (slice_len (dim1 im) (icx - ir) (icx + ir))) as [Ex | Nx];
    cbn [andb].
  - destruct ((List.length color =? dim2 im) || (List.length color =? 1));
      cbn [snd]; split; try discriminate; intros N; exfalso; apply N;
      now split.
  - cbn [snd]. split; [intros _ [_ E]; now apply Nx | reflexivity].
  - cbn [snd]. split; [intros _ [E _]; now apply Ny | reflexivity].
  - cbn [snd]. split; [intros _ [E _]; now apply Ny | reflexivity].
Qed.

Lemma npcircle_index_error_witness :
  snd (_npcircle (black 20 30) (PyInt 25) (PyInt 19) (PyInt 2) red
         (S754_zero false)) = Some IndexError /\
  snd (_npcircle (black 20 30) (PyInt 25) (PyInt 18) (PyInt 2) red
         (S754_zero false)) <> Some IndexError.
Proof.
  split.
  - apply (proj2 (@npcircle_index_error (black 20 30) (PyInt 25) (PyInt 19)
                    (PyInt 2) 25%Z 19%Z 2%Z red (S754_zero false)
                    eq_refl eq_refl eq_refl ltac:(lia)
                    ltac:(simpl; lia) ltac:(simpl; lia))).
    unfold window_fits. simpl. lia.
  - intros H.
    apply (proj1 (@npcircle_index_error (black 20 30) (PyInt 25) (PyInt 18)
                    (PyInt 2) 25%Z 18%Z 2%Z red (S754_zero false)
                    eq_refl eq_refl eq_refl ltac:(lia)
                    ltac:(simpl; lia) ltac:(simpl; lia))) in H.
    apply H. unfold window_fits. simpl. lia.
Defined.
